(** * Verification of the benchmark loader (loader.go)

    The loader reads benchmark logs, groups the parsed runs by workload and
    day, rejects throughput outliers per day and renders one line per day.

    The development is a shallow embedding of [loader.go]:
    - [float64] is the kernel's binary64 float ([PrimFloat.float]) with the
      IEEE operations of Go in its default amd64 build (round to nearest
      even, every operation rounded on its own, no fused multiply-add);
      properties of all floats go through [Prim2SF] and the specification
      of the operations in [SpecFloat];
    - [int64] is [Z] with the two's-complement wrap-around written out;
    - Go maps are [gmap]s with [string] keys, slices are lists, strings are
      byte strings;
    - a run-time panic is [None];
    - the store and the error stream are threaded through a small state
      monad;
    - [fmt.Sscanf], [os.Open] followed by the bzip2 reader and the line
      scanner, and [os.PathSeparator] are parameters of [load]; the verbs
      [%.1f] and [%d] of [fmt.Sprintf] are modelled after [strconv]. *)

From Stdlib Require Import ZArith List String Ascii Floats Uint63 DecimalString Lia.
From stdpp Require Import gmap strings list fin_maps sorting.

(* Decimal literals such as 13.6 denote the nearest [float64], as the
   loader's scanner produces them. *)
Set Warnings "-inexact-float".

Local Open Scope Z_scope.

(** ** Machine integers *)

Module Int64.

Definition min_int : Z := - 2 ^ 63.
Definition max_int : Z := 2 ^ 63 - 1.

Definition in_range (z : Z) : Prop := min_int <= z <= max_int.

(** Two's-complement reduction of a mathematical integer to 64 bits. *)
Definition wrap (z : Z) : Z := (z + 2 ^ 63) mod 2 ^ 64 - 2 ^ 63.

(** [a + b] on [int64]. *)
Definition add (a b : Z) : Z := wrap (a + b).

(** [a / b] on [int64]: truncated towards zero; dividing by zero is a
    run-time panic. *)
Definition quo (a b : Z) : option Z :=
  if b =? 0 then None else Some (wrap (Z.quot a b)).

End Int64.

(** ** Floating point *)

Module Float64.

Local Open Scope float_scope.

(** [float64(n)] for a Go [int] [n] with [0 <= n < 2^63], as [len] and the
    record counter are. *)
Definition of_int (n : Z) : float := PrimFloat.of_uint63 (Uint63.of_Z n).

(** Go's [x > y]. *)
Definition gtb (x y : float) : bool := (y <? x).

Definition is_finite (x : float) : bool :=
  match Prim2SF x with
  | S754_zero _ | S754_finite _ _ _ => true
  | _ => false
  end.

Definition is_neg_zero (x : float) : bool :=
  match Prim2SF x with
  | S754_zero true => true
  | _ => false
  end.

(** The standard deviation of a group of the single value [x], as the
    loops below compute it: the deviation of [x] from the mean [0 + x],
    squared, accumulated from zero, divided by one, and its root. *)
Definition single_stddev (x : float) : float :=
  let v := x - (0 + x) in PrimFloat.sqrt ((0 + v * v) / 1).

End Float64.

(** ** Formatting ([fmt.Sprintf] verbs used by the loader) *)

Module Fmt.

Local Open Scope string_scope.

(** [%d] of an integer. *)
Definition d (z : Z) : string := NilZero.string_of_int (Z.to_int z).

(** The integer nearest to [num / den] ([den > 0], [num >= 0]), an exact
    tie going to the even neighbour: the rounding of [strconv]'s decimal
    conversion. *)
Definition round_half_even (num den : Z) : Z :=
  let q := num / den in
  let r := num mod den in
  match 2 * r ?= den with
  | Lt => q
  | Eq => if Z.even q then q else q + 1
  | Gt => q + 1
  end.

(** The number of tenths nearest to [m * 2^e]. *)
Definition tenths (m : positive) (e : Z) : Z :=
  if (0 <=? e)%Z then (Z.pos m * 2 ^ e * 10)%Z
  else round_half_even (Z.pos m * 10) (2 ^ (- e)).

(** Sign, integer part, point, one digit. *)
Definition fixed1 (neg : bool) (t : Z) : string :=
  (if neg then "-" else "") ++ d (t / 10) ++ "." ++ d (t mod 10).

(** [%.1f] of a [float64]. *)
Definition f1 (x : float) : string :=
  match Prim2SF x with
  | S754_nan => "NaN"
  | S754_infinity false => "+Inf"
  | S754_infinity true => "-Inf"
  | S754_zero s => fixed1 s 0
  | S754_finite s m e => fixed1 s (tenths m e)
  end.

End Fmt.

(** ** The data model *)

Record run : Type := Run {
  opsSec : float;
  readBytes : Z;
  writeBytes : Z;
  readAmp : float;
  writeAmp : float
}.

(** [var avg run]: the zero value. *)
Definition zero_run : run := Run 0%float 0 0 0%float 0%float.

(** ** The Day Aggregator: [cookDay] *)

Section CookDay.

Local Open Scope float_scope.

(** First loop: [sum += runs[i].opsSec]. *)
Definition sum_loop (runs : list run) : float :=
  fold_left (fun sum r => sum + opsSec r) runs 0.

(** Second loop: [v := runs[i].opsSec - mean; sum2 += v * v]. *)
Definition sum2_loop (mean : float) (runs : list run) : float :=
  fold_left (fun sum2 r => let v := opsSec r - mean in sum2 + v * v) runs 0.

Definition mean_of (runs : list run) : float :=
  sum_loop runs / Float64.of_int (Z.of_nat (length runs)).

Definition stddev_of (runs : list run) : float :=
  PrimFloat.sqrt
    (sum2_loop (mean_of runs) runs / Float64.of_int (Z.of_nat (length runs))).

Definition lo_of (runs : list run) : float := mean_of runs - stddev_of runs.
Definition hi_of (runs : list run) : float := mean_of runs + stddev_of runs.

(** The test that makes the third loop [continue]. *)
Definition skipped (lo hi : float) (r : run) : bool :=
  (opsSec r <? lo) || Float64.gtb (opsSec r) hi.

(** One iteration of the third loop on the pair [(avg, count)]. *)
Definition avg_step (lo hi : float) (st : run * Z) (r : run) : run * Z :=
  let '(avg, count) := st in
  if skipped lo hi r then st
  else
    (Run (opsSec avg + opsSec r)
         (Int64.add (readBytes avg) (readBytes r))
         (Int64.add (writeBytes avg) (writeBytes r))
         (readAmp avg + readAmp r)
         (writeAmp avg + writeAmp r),
     (count + 1)%Z).

Definition avg_loop (lo hi : float) (runs : list run) : run * Z :=
  fold_left (avg_step lo hi) runs (zero_run, 0%Z).

(** The five values handed to [Sprintf]; the integer divisions panic when
    [count] is zero. *)
Definition averages (avg : run) (count : Z) : option run :=
  let ops := opsSec avg / Float64.of_int count in
  match Int64.quo (readBytes avg) count, Int64.quo (writeBytes avg) count with
  | Some rb, Some wb =>
      Some (Run ops rb wb
                (readAmp avg / Float64.of_int count)
                (writeAmp avg / Float64.of_int count))
  | _, _ => None
  end.

(** [Sprintf("%.1f,%d,%d,%.1f,%.1f", ...)]. *)
Definition render (a : run) : string :=
  (Fmt.f1 (opsSec a) ++ "," ++ Fmt.d (readBytes a) ++ "," ++
   Fmt.d (writeBytes a) ++ "," ++ Fmt.f1 (readAmp a) ++ "," ++
   Fmt.f1 (writeAmp a))%string.

Definition aggregate (runs : list run) : option run :=
  let '(avg, count) := avg_loop (lo_of runs) (hi_of runs) runs in
  averages avg count.

Definition cookDay (runs : list run) : option string :=
  render <$> aggregate runs.

End CookDay.

(** ** The Grouping Store *)

Record workload : Type := Workload {
  days : gmap string (list run)
}.

Record loader : Type := Loader {
  data : gmap string workload
}.

(** ** Ordering of day keys: [sort.Strings] *)

(** Go compares strings byte by byte. *)
Definition string_le (a b : string) : Prop := String.leb a b = true.

#[global] Instance string_le_dec (a b : string) : Decision (string_le a b).
Proof. unfold string_le. apply _. Defined.

Definition sort_Strings (l : list string) : list string :=
  merge_sort string_le l.

(** ** The Workload Cooker: [cookWorkload] *)

Definition newline : string := String "010" EmptyString.

(** What one pass of the loop over the sorted days formats:
    [Sprintf("%s,%s\n", day, l.cookDay(w.days[day]))]. *)
Definition day_line (w : workload) (day : string) : option string :=
  agg ← cookDay (days w !!! day);
  Some (day ++ "," ++ agg ++ newline)%string.

(** One pass of the loop: [fmt.Fprintf(&buf, ...)] appends the formatted
    line to the buffer. *)
Definition cook_line (w : workload) (buf : option string) (day : string)
  : option string :=
  b ← buf;
  line ← day_line w day;
  Some (b ++ line)%string.

(** The lines of a blob, one after the other. *)
Definition join_lines (lines : list string) : string :=
  fold_right String.append EmptyString lines.

Definition cookWorkload (w : workload) : option string :=
  let ds := sort_Strings (map fst (map_to_list (days w))) in
  fold_left (cook_line w) ds (Some ""%string).

(** ** State: the loader and the error stream *)

Record state : Type := State {
  st_loader : loader;
  st_stderr : list string
}.

(** Computations that read or write the state and may panic. *)
Definition M (A : Type) : Type := state -> option A * state.

#[global] Instance M_ret : MRet M := fun A a s => (Some a, s).

#[global] Instance M_bind : MBind M := fun A B f c s =>
  match c s with
  | (Some a, s') => f a s'
  | (None, s') => (None, s')
  end.

Definition get_data : M (gmap string workload) :=
  fun s => (Some (data (st_loader s)), s).

Definition set_data (d : gmap string workload) : M unit :=
  fun s => (Some tt, State (Loader d) (st_stderr s)).

(** [fmt.Fprintf(os.Stderr, ...)]. *)
Definition eprint (msg : string) : M unit :=
  fun s => (Some tt, State (st_loader s) (st_stderr s ++ [msg])).

(** A pure computation that may panic. *)
Definition lift {A : Type} (o : option A) : M A := fun s => (o, s).

(** [for _, x := range l { body x }]. *)
Fixpoint for_each {A : Type} (body : A -> M unit) (l : list A) : M unit :=
  match l with
  | [] => mret tt
  | x :: l' => _ ← body x; for_each body l'
  end.

(** ** The Report Builder: [cook] *)

(** [m[name] = l.cookWorkload(workload)] for every entry of [l.data]. *)
Definition cook_entry (acc : option (gmap string string))
    (entry : string * workload) : option (gmap string string) :=
  m ← acc;
  blob ← cookWorkload entry.2;
  Some (<[entry.1 := blob]> m).

Definition cook : M (gmap string string) :=
  d ← get_data;
  lift (fold_left cook_entry (map_to_list d) (Some ∅)).

(** ** The Record Parser and the file reader: [load] *)

(** [strings.Split(s, string(sep))] for a one-byte separator: the segments
    between the separators, always at least one. *)
Fixpoint Split (sep : ascii) (s : string) : list string :=
  match s with
  | EmptyString => [EmptyString]
  | String c s' =>
      if Ascii.eqb c sep then EmptyString :: Split sep s'
      else
        match Split sep s' with
        | seg :: segs => String c seg :: segs
        | [] => [String c EmptyString]
        end
  end.

(** What [fmt.Sscanf] hands back for the loader's format: the number of
    fields scanned, the error if any, and the values stored through the
    pointers. *)
Record scan_result : Type := ScanResult {
  sc_n : Z;
  sc_err : option string;
  sc_name : string;
  sc_run : run
}.

(** [%v] of an [error]. *)
Definition error_text (e : option string) : string :=
  match e with
  | Some msg => msg
  | None => "<nil>"
  end.

(** The store after [w := l.data[name]], the creation of the workload when
    [w == nil], and [w.days[day] = append(w.days[day], r)]. *)
Definition add_record (day name : string) (r : run)
    (d : gmap string workload) : gmap string workload :=
  let w := default (Workload ∅) (d !! name) in
  <[name := Workload (<[day := (days w !!! day) ++ [r]]> (days w))]> d.

(** The body of [load] after a successful scan. *)
Definition record (day name : string) (r : run) : M unit :=
  d ← get_data;
  set_data (add_record day name r d).

Section Load.

(** [os.PathSeparator]. *)
Variable PathSeparator : ascii.

(** [os.Open] followed by the bzip2 reader and the line scanner: an error
    of [os.Open], or the lines the scanner yields. *)
Variable open_lines : string -> string + list string.

(** [fmt.Sscanf(line, "Benchmark%s %d %f ops/sec %d read %d write %f r-amp
    %f w-amp", ...)]. *)
Variable Sscanf : string -> scan_result.

(** Whether the scan is rejected: [err != nil || n != 7]. *)
Definition scan_failed (sc : scan_result) : bool :=
  bool_decide (sc_err sc ≠ None) || negb (sc_n sc =? 7).

(** The body of the loop over the lines of one file. *)
Definition load_line (day line : string) : M unit :=
  if negb (String.prefix "Benchmark" line) then mret tt
  else
    let sc := Sscanf line in
    if scan_failed sc then
      eprint (line ++ ": " ++ error_text (sc_err sc) ++ newline)%string
    else record day (sc_name sc) (sc_run sc).

(** What a line contributes to the store: the workload name and the run
    of a line that carries the marker and scans. *)
Definition accepted (line : string) : option (string * run) :=
  if String.prefix "Benchmark" line && negb (scan_failed (Sscanf line))
  then Some (sc_name (Sscanf line), sc_run (Sscanf line))
  else None.

(** What a line writes to the error stream: the raw line and the error of
    a line that carries the marker and does not scan. *)
Definition diagnostic (line : string) : option string :=
  if String.prefix "Benchmark" line && scan_failed (Sscanf line)
  then
    Some (line ++ ": " ++ error_text (sc_err (Sscanf line)) ++ newline)%string
  else None.

Definition load (path : string) : M unit :=
  let parts := Split PathSeparator path in
  if (length parts <? 2)%nat then mret tt
  else
    let day := nth 1 parts EmptyString in
    match open_lines path with
    | inl err => eprint (err ++ newline)%string
    | inr lines => for_each (load_line day) lines
    end.

End Load.

(** ** The aggregation as the specification words it

    The algorithm of the Day Aggregator as the specification lists it, step
    by step, in the arithmetic of the program ([float64] sums accumulated
    from zero in list order, [int64] sums, truncating integer division).
    These definitions follow the specification's text and are compared
    with [cookDay] below. *)

Module Spec.

Local Open Scope float_scope.

Definition fsum (xs : list float) : float := fold_left PrimFloat.add xs 0.

Definition isum (zs : list Z) : Z := fold_left Int64.add zs 0%Z.

(** Step 1: the arithmetic mean. *)
Definition mean (xs : list float) : float :=
  fsum xs / Float64.of_int (Z.of_nat (length xs)).

(** Step 2: the population standard deviation. *)
Definition stddev (xs : list float) : float :=
  let m := mean xs in
  PrimFloat.sqrt
    (fsum (map (fun x => (x - m) * (x - m)) xs)
     / Float64.of_int (Z.of_nat (length xs))).

(** Step 3: membership of the inclusive band [[lo, hi]]. *)
Definition in_band (lo hi x : float) : bool := (lo <=? x) && (x <=? hi).

(** Step 4: the records kept. *)
Definition kept (runs : list run) : list run :=
  let xs := map opsSec runs in
  List.filter
    (fun r => in_band (mean xs - stddev xs) (mean xs + stddev xs) (opsSec r))
    runs.

(** Step 5: per field, the sum of the kept values divided by their
    number (meaningful when [ks] is not empty). *)
Definition average (ks : list run) : run :=
  let count := Z.of_nat (length ks) in
  Run (fsum (map opsSec ks) / Float64.of_int count)
      (Z.quot (isum (map readBytes ks)) count)
      (Z.quot (isum (map writeBytes ks)) count)
      (fsum (map readAmp ks) / Float64.of_int count)
      (fsum (map writeAmp ks) / Float64.of_int count).

End Spec.

(** The records the third loop of [cookDay] does not skip. *)
Definition retained (runs : list run) : list run :=
  List.filter (fun r => negb (skipped (lo_of runs) (hi_of runs) r)) runs.

(** ** Values of the binary64 specification used in the proofs *)

Module SF.

(** The float 1. *)
Definition one : spec_float := S754_finite false 4503599627370496 (-52).

(** What adding to a positive zero returns: the other operand, a negative
    zero becoming the positive one. *)
Definition pz (X : spec_float) : spec_float :=
  match X with
  | S754_zero _ => S754_zero false
  | _ => X
  end.

Definition finite (X : spec_float) : bool :=
  match X with
  | S754_zero _ | S754_finite _ _ _ => true
  | _ => false
  end.

(** [Float64.single_stddev] on the specification. *)
Definition single_stddev (X : spec_float) : spec_float :=
  let V := SF64sub X (pz X) in
  SF64sqrt (SF64div (SF64add (S754_zero false) (SF64mul V V)) one).

End SF.

(** ** Concrete days and stores used below *)

Module Examples.

Local Open Scope float_scope.

(** Two runs of one day, 13.6 and 1.7 ops/sec. *)
Definition two_runs : list run :=
  [Run 13.6 100 200 1.5 2.5; Run 1.7 300 400 3.5 4.5].

(** Two runs whose throughputs add up beyond the largest [float64]. *)
Definition huge_runs : list run :=
  [Run 1e308 1 2 1.5 2.5; Run 1e308 3 4 3.5 4.5].

(** A single run with an infinite throughput, and one whose read
    amplification is the negative zero. *)
Definition inf_run : run := Run infinity 1 2 1.5 2.5.
Definition negzero_run : run := Run 100 1 2 (-0) 2.5.

(** The same four runs in two orders. *)
Definition slow_last : list run :=
  [Run 83.7 1 2 1.5 2.5; Run 83.7 1 2 1.5 2.5;
   Run 11.2 1 2 1.5 2.5; Run 11.2 1 2 1.5 2.5].
Definition slow_first : list run :=
  [Run 11.2 1 2 1.5 2.5; Run 11.2 1 2 1.5 2.5;
   Run 83.7 1 2 1.5 2.5; Run 83.7 1 2 1.5 2.5].

(** Sums that the integer division truncates: 7 / 2 and -7 / 2. *)
Definition odd_bytes : list run :=
  [Run 100 3 (-3) 0.25 0.75; Run 100 4 (-4) 0.25 0.75].

Definition empty_state : state := State (Loader ∅) [].

(** A workload "X" whose day 2020-01-02 is recorded before its day
    2020-01-01. *)
Definition two_days : state :=
  ((_ ← record "2020-01-02" "X" (Run 200 20 40 2.5 3.5);
    record "2020-01-01" "X" (Run 100 10 30 1.5 4.5)) empty_state).2.

Definition workload_X : workload :=
  default (Workload ∅) (data (st_loader two_days) !! "X"%string).

(** A scanner and a file system for one file with an accepted line, an
    unmarked line and a malformed line. *)
Definition good_line : string :=
  "BenchmarkX 1 100.0 ops/sec 10 read 30 write 1.5 r-amp 4.5 w-amp".
Definition bad_line : string := "BenchmarkFoo not-a-number ops/sec".

Definition scan (line : string) : scan_result :=
  if String.eqb line good_line
  then ScanResult 7 None "X" (Run 100 10 30 1.5 4.5)
  else ScanResult 1 (Some "expected integer"%string) "Foo" zero_run.

Definition one_file (path : string) : string + list string :=
  inr [good_line; "PASS"%string; bad_line].

End Examples.

(** * More of the program *)

(** ** Definitions for further properties of the loader *)

(** [strings.Join(parts, string(sep))]. *)
Fixpoint Join (sep : ascii) (parts : list string) : string :=
  match parts with
  | [] => EmptyString
  | [p] => p
  | p :: ps => (p ++ String sep (Join sep ps))%string
  end.

(** The number of bytes of [s] equal to [c]. *)
Fixpoint count_byte (c : ascii) (s : string) : nat :=
  match s with
  | EmptyString => 0%nat
  | String x s' => ((if Ascii.eqb x c then 1 else 0) + count_byte c s')%nat
  end.

(** [l.data[name].days[day]] read from the store: the runs recorded for a
    workload and a day, none when either key is absent. *)
Definition runs_of (d : gmap string workload) (name day : string) : list run :=
  days (default (Workload ∅) (d !! name)) !!! day.

(** No workload of the store is without a day and no day without a run. *)
Definition no_empty_bucket (d : gmap string workload) : Prop :=
  forall name w,
    d !! name = Some w ->
    days w <> ∅ /\ forall day rs, days w !! day = Some rs -> rs <> [].

(** The runs a list of lines contributes to a workload, in file order. *)
Definition runs_for (Sscanf : string -> scan_result) (name : string)
    (lines : list string) : list run :=
  omap (fun line =>
          match accepted Sscanf line with
          | Some (n, r) => if String.eqb n name then Some r else None
          | None => None
          end) lines.

(** Positive infinity or NaN: what the sum of squared deviations, and the
    deviation computed from it, are when the mean is not finite. *)
Definition pinf_or_nan (X : spec_float) : Prop :=
  X = S754_infinity false \/ X = S754_nan.

(** The sum of a list of integers, without wrap-around. *)
Definition zsum (zs : list Z) : Z := fold_right Z.add 0 zs.

(** [cookWorkload] when the range over the map [w.days] yields the day
    keys in the order [keys] (Go leaves the order of a range over a map
    unspecified). *)
Definition cookWorkload_ranging (keys : list string) (w : workload)
  : option string :=
  fold_left (cook_line w) (sort_Strings keys) (Some ""%string).

(** The loop of [cook] when the range over the map [l.data] yields the
    entries in the order [entries]. *)
Definition cook_ranging (entries : list (string * workload))
  : option (gmap string string) :=
  fold_left cook_entry entries (Some ∅).

(** The bytes that separate the fields and the lines of a blob. *)
Definition separator (c : ascii) : Prop := c = ","%char \/ c = "010"%char.

Section LoadedFiles.

Variable PathSeparator : ascii.
Variable open_lines : string -> string + list string.
Variable Sscanf : string -> scan_result.

(** [parts[1]], the day of a path of at least two segments. *)
Definition day_of (path : string) : string :=
  nth 1 (Split PathSeparator path) EmptyString.

(** The workload names and runs [load] records for a path, in file order:
    none for a path of fewer than two segments or a file that cannot be
    opened. *)
Definition contribution (path : string) : list (string * run) :=
  if (length (Split PathSeparator path) <? 2)%nat then []
  else
    match open_lines path with
    | inl _ => []
    | inr lines => omap (accepted Sscanf) lines
    end.

End LoadedFiles.

(** ** The program: [prettyJSON] and [main] *)

(** A computation that may end the program with [os.Exit]. *)
Inductive exit_or (A : Type) : Type :=
  | Exit (code : Z)
  | Ret (a : A).

Arguments Exit {A} code.
Arguments Ret {A} a.

Section Main.

Variable PathSeparator : ascii.
Variable open_lines : string -> string + list string.
Variable Sscanf : string -> scan_result.

(** [filepath.Walk(root, fn)] with an [fn] that always returns [nil]: the
    calls of [fn] in order, each with its path and its [info]; [None] is a
    nil [info] (an entry whose [Lstat] failed, such as a missing root) and
    [Some b] an [info] with [info.Mode().IsRegular() = b]. *)
Variable Walk : string -> list (string * option bool).

(** [json.MarshalIndent(v, "", "\t")]: an error or the bytes. *)
Variable MarshalIndent : gmap string string -> string + string.

(** [ioutil.WriteFile(name, data, 0644)]: [Some err] when it fails. *)
Variable WriteFile : string -> string -> option string.

(** The function [main] hands to [filepath.Walk]; the method call on a nil
    [info] panics. *)
Definition walk_fn (v : string * option bool) : M unit :=
  regular ← lift v.2;
  if regular : bool then load PathSeparator open_lines Sscanf v.1 else mret tt.

Definition prettyJSON (v : gmap string string) : M (exit_or string) :=
  match MarshalIndent v with
  | inl err => _ ← eprint (err ++ newline)%string; mret (Exit 1)
  | inr data => mret (Ret data)
  end.

(** [main] starts from a fresh loader; it returns the bytes it wrote to
    "data.js". *)
Definition main : M (exit_or string) :=
  _ ← set_data ∅;
  _ ← for_each walk_fn (Walk "data");
  report ← cook;
  json ← prettyJSON report;
  match json with
  | Exit code => mret (Exit code)
  | Ret data =>
      match WriteFile "data.js" data with
      | Some err => _ ← eprint (err ++ newline)%string; mret (Exit 1)
      | None => mret (Ret data)
      end
  end.

End Main.

(** The entries of a walk that record something: regular files with an
    accepted line. *)
Definition productive (PathSeparator : ascii)
    (open_lines : string -> string + list string)
    (Sscanf : string -> scan_result) (v : string * option bool) : bool :=
  match v.2 with
  | Some true =>
      match contribution PathSeparator open_lines Sscanf v.1 with
      | [] => false
      | _ => true
      end
  | _ => false
  end.

(** The store after a walk all of whose entries have an [info]. *)
Definition walked (PathSeparator : ascii)
    (open_lines : string -> string + list string)
    (Sscanf : string -> scan_result) (visits : list (string * option bool))
  : gmap string workload :=
  fold_left
    (fun d v =>
       fold_left (fun d nr => add_record (day_of PathSeparator v.1) nr.1 nr.2 d)
                 (contribution PathSeparator open_lines Sscanf v.1) d)
    (List.filter (productive PathSeparator open_lines Sscanf) visits) ∅.

(** A day all of whose runs the Day Aggregator skips. *)
Definition all_skipped (rs : list run) : Prop :=
  Forall (fun r => skipped (lo_of rs) (hi_of rs) r = true) rs.

(** ** A small data directory *)

Module Scenario.

Local Open Scope float_scope.

Definition line_Y : string :=
  "BenchmarkY 1 50.0 ops/sec 5 read 15 write 2.5 r-amp 3.5 w-amp".

(** A scanner that also accepts a line of workload "Y". *)
Definition scan (line : string) : scan_result :=
  if String.eqb line line_Y
  then ScanResult 7 None "Y" (Run 50 5 15 2.5 3.5)
  else Examples.scan line.

(** Two files that open, of two days; every other path fails to open. *)
Definition files (path : string) : string + list string :=
  if String.eqb path "data/2020-01-01/x.bz2"
  then inr [Examples.good_line; "PASS"%string; Examples.bad_line]
  else if String.eqb path "data/2020-01-02/y.bz2"
  then inr [line_Y; Examples.good_line]
  else inl "open: no such file"%string.

(** The walk of the directory: two directories of a day with a file each,
    a file outside the days and a file that cannot be opened. *)
Definition tree (root : string) : list (string * option bool) :=
  [(root, Some false);
   ("data/2020-01-01", Some false); ("data/2020-01-01/x.bz2", Some true);
   ("data/2020-01-02", Some false); ("data/2020-01-02/y.bz2", Some true);
   ("data/README", Some true); ("data/gone.bz2", Some true)]%string.

(** The walk of the two files alone, and the walk of a missing root. *)
Definition files_only (root : string) : list (string * option bool) :=
  [("data/2020-01-01/x.bz2", Some true);
   ("data/2020-01-02/y.bz2", Some true)]%string.

Definition missing (root : string) : list (string * option bool) :=
  [(root, None)].

(** A marshaller that never fails and writes the keys in order, and a
    file system that takes every write. *)
Definition marshal (m : gmap string string) : string + string :=
  inr (join_lines
         (map (fun k => (k ++ ":" ++ default EmptyString (m !! k))%string)
              (sort_Strings (map fst (map_to_list m))))).

Definition write (name bytes : string) : option string := None.

(** The state after the walk of [tree]. *)
Definition loaded : state :=
  (for_each (walk_fn "/" files scan) (tree "data") Examples.empty_state).2.

End Scenario.

(** ** A day that keeps no record, and a group with a NaN *)

Module BadDay.

Local Open Scope float_scope.

(** Two lines of one file: runs of 13.6 and of 1.7 ops/sec. *)
Definition line_1 : string :=
  "BenchmarkX 1 13.6 ops/sec 100 read 200 write 1.5 r-amp 2.5 w-amp".
Definition line_2 : string :=
  "BenchmarkX 1 1.7 ops/sec 300 read 400 write 3.5 r-amp 4.5 w-amp".

Definition scan (line : string) : scan_result :=
  if String.eqb line line_1
  then ScanResult 7 None "X" (Run 13.6 100 200 1.5 2.5)
  else if String.eqb line line_2
  then ScanResult 7 None "X" (Run 1.7 300 400 3.5 4.5)
  else ScanResult 0 (Some "unexpected input"%string) "" zero_run.

Definition files (path : string) : string + list string :=
  inr [line_1; line_2].

(** The store after the file is loaded, and its workload "X". *)
Definition store : state :=
  (load "/" files scan "data/2020-01-01/run.bz2" Examples.empty_state).2.

Definition workload_X : workload :=
  default (Workload ∅) (data (st_loader store) !! "X"%string).


End BadDay.

(** * Properties *)

(** ** 64-bit integers *)

Module Int64Facts.

Import Int64.

Lemma i64_wrap_in_range z : in_range (wrap z).
Proof.
  unfold in_range, wrap, min_int, max_int.
  pose proof (Z.mod_pos_bound (z + 2 ^ 63) (2 ^ 64) ltac:(lia)). lia.
Qed.

Lemma i64_wrap_id z : in_range z -> wrap z = z.
Proof.
  unfold in_range, wrap, min_int, max_int. intros H.
  rewrite Z.mod_small; lia.
Qed.

Lemma i64_wrap_add_l a b : wrap (wrap a + b) = wrap (a + b).
Proof.
  unfold wrap. f_equal.
  replace ((a + 2 ^ 63) mod 2 ^ 64 - 2 ^ 63 + b + 2 ^ 63)
    with ((a + 2 ^ 63) mod 2 ^ 64 + b) by lia.
  rewrite Zplus_mod_idemp_l. f_equal. lia.
Qed.

Lemma i64_add_0_l a : in_range a -> add 0 a = a.
Proof. intros H. unfold add. now rewrite Z.add_0_l, i64_wrap_id. Qed.

Lemma i64_add_comm a b : add a b = add b a.
Proof. unfold add. now rewrite Z.add_comm. Qed.

Lemma i64_add_swap a b c : add (add a b) c = add (add a c) b.
Proof.
  unfold add. rewrite !i64_wrap_add_l. f_equal. lia.
Qed.

Lemma i64_add_in_range a b : in_range (add a b).
Proof. apply i64_wrap_in_range. Qed.

(** Truncated division by a positive count stays in range. *)
Lemma i64_quot_in_range a c : in_range a -> 0 < c -> in_range (Z.quot a c).
Proof.
  unfold in_range, min_int, max_int. intros Ha Hc.
  destruct (Z.le_gt_cases 0 a) as [H0 | H0].
  - pose proof (Z.quot_pos a c H0 Hc).
    pose proof (Z.quot_le_upper_bound a c a Hc ltac:(nia)). lia.
  - pose proof (Z.quot_opp_l a c ltac:(lia)) as Ho.
    pose proof (Z.quot_pos (- a) c ltac:(lia) Hc).
    pose proof (Z.quot_le_upper_bound (- a) c (- a) Hc ltac:(nia)). lia.
Qed.

Lemma i64_quo_pos a c :
  in_range a -> 0 < c -> quo a c = Some (Z.quot a c).
Proof.
  intros Ha Hc. unfold quo.
  destruct (Z.eqb_spec c 0) as [-> | _]; [lia |].
  now rewrite i64_wrap_id by now apply i64_quot_in_range.
Qed.

Lemma i64_quo_zero a : quo a 0 = None.
Proof. reflexivity. Qed.

Lemma i64_quo_1 a : in_range a -> quo a 1 = Some a.
Proof. intros H. rewrite i64_quo_pos by (auto; lia). now rewrite Z.quot_1_r. Qed.


End Int64Facts.

(** ** Binary64 arithmetic on its specification *)

Module SFFacts.

Import SF.

Lemma sf_Prim2SF_one : Prim2SF 1%float = one.
Proof. reflexivity. Qed.

Lemma sf_Prim2SF_zero : Prim2SF 0%float = S754_zero false.
Proof. reflexivity. Qed.

Lemma sf_bounded_inv m e :
  bounded prec emax m e = true ->
  (e = -1074 /\ Z.pos (digits2_pos m) <= 53 \/
   -1074 < e /\ Z.pos (digits2_pos m) = 53) /\ e <= 971.
Proof.
  unfold bounded, canonical_mantissa, fexp, SpecFloat.emin, prec, emax.
  intros H. apply andb_prop in H as [H1 H2].
  apply Z.eqb_eq in H1. apply Z.leb_le in H2. lia.
Qed.

Lemma sf_shr_fexp_canonical m e :
  canonical_mantissa prec emax m e = true ->
  shr_fexp prec emax (Z.pos m) e loc_Exact =
  (Build_shr_record (Z.pos m) false false, e).
Proof.
  unfold canonical_mantissa, shr_fexp. intros H. apply Z.eqb_eq in H.
  cbn [Zdigits2 shr_record_of_loc]. rewrite H, Z.sub_diag. reflexivity.
Qed.

Lemma sf_binary_round_aux_exact s m e :
  bounded prec emax m e = true ->
  binary_round_aux prec emax s (Z.pos m) e loc_Exact = S754_finite s m e.
Proof.
  intros H. unfold bounded in H. apply andb_prop in H as [H1 H2].
  unfold binary_round_aux.
  rewrite (sf_shr_fexp_canonical _ _ H1). cbn [shr_m loc_of_shr_record round_nearest_even].
  rewrite (sf_shr_fexp_canonical _ _ H1). cbn [shr_m].
  rewrite H2. reflexivity.
Qed.

Lemma sf_div_eucl_exact a b : 0 < b -> Z.div_eucl (a * b) b = (a, 0).
Proof.
  intros Hb. pose proof (Z.div_mul a b ltac:(lia)) as Hq.
  pose proof (Z.mod_mul a b ltac:(lia)) as Hr.
  unfold Z.div, Z.modulo in Hq, Hr.
  destruct (Z.div_eucl (a * b) b). simpl in *. congruence.
Qed.

Lemma sf_div_one_finite s m e :
  bounded prec emax m e = true ->
  SFdiv prec emax (S754_finite s m e) one = S754_finite s m e.
Proof.
  intros Hb. pose proof (sf_bounded_inv _ _ Hb) as [Hc He].
  unfold SFdiv, one, SFdiv_core_binary.
  cbn [Zdigits2]. change (Z.pos (digits2_pos 4503599627370496)) with 53.
  unfold fexp, SpecFloat.emin, prec, emax.
  destruct Hc as [[-> Hd] | [Hlo Hd]].
  - replace (Z.min _ _) with (-1074) by lia.
    change (-1074 - -52 - -1074) with 52.
    rewrite Z.shiftl_mul_pow2 by lia.
    change (2 ^ 52) with 4503599627370496.
    rewrite sf_div_eucl_exact by lia.
    change (new_location 4503599627370496 0) with loc_Exact.
    rewrite (sf_binary_round_aux_exact _ _ _ Hb). now destruct s.
  - rewrite Hd.
    replace (Z.min _ _) with (e - 1) by lia.
    replace (e - -52 - (e - 1)) with 53 by lia.
    rewrite Z.shiftl_mul_pow2 by lia.
    change (2 ^ 53) with (2 * 4503599627370496).
    rewrite Z.mul_assoc, sf_div_eucl_exact by lia.
    change (new_location 4503599627370496 0) with loc_Exact.
    unfold binary_round_aux.
    replace (Z.pos m * 2) with (Z.pos m~0) by lia.
    unfold shr_fexp at 1. cbn [Zdigits2 digits2_pos shr_record_of_loc].
    rewrite Pos2Z.inj_succ, Hd.
    unfold fexp, SpecFloat.emin, prec, emax.
    replace (Z.max _ _ - (e - 1)) with 1 by lia.
    cbn [shr SpecFloat.iter_pos shr_1 shr_m loc_of_shr_record round_nearest_even orb].
    replace (e - 1 + 1) with e by lia.
    unfold bounded in Hb. apply andb_prop in Hb as [H1 H2].
    change (shr_fexp 53 1024) with (shr_fexp prec emax).
    rewrite (sf_shr_fexp_canonical _ _ H1). cbn [shr_m].
    change (1024 - 53) with (emax - prec). rewrite H2. now destruct s.
Qed.

(** Dividing by one changes no valid float. *)
Lemma sf_div_one X :
  valid_binary X = true -> SF64div X one = X.
Proof.
  destruct X as [[|]|[|]| |s m e]; intros H; try reflexivity.
  now apply sf_div_one_finite.
Qed.

Lemma sf_add_zero_l X : SF64add (S754_zero false) X = pz X.
Proof. now destruct X as [[|]|[|]| |s m e]. Qed.

Lemma sf_pz_idem X : pz (pz X) = pz X.
Proof. now destruct X. Qed.

Lemma sf_add_comm X Y : SF64add X Y = SF64add Y X.
Proof.
  destruct X as [[|]|[|]| |s m e], Y as [[|]|[|]| |s' m' e']; try reflexivity.
  unfold SF64add, SFadd. now rewrite Z.min_comm, Z.add_comm.
Qed.

Lemma sf_add_pz_swap X Y : SF64add (pz X) Y = SF64add (pz Y) X.
Proof.
  rewrite (sf_add_comm (pz Y) X).
  destruct X as [[|]|[|]| |s m e], Y as [[|]|[|]| |s' m' e']; reflexivity.
Qed.

Lemma sf_sub_diag_finite s m e :
  SF64sub (S754_finite s m e) (S754_finite s m e) = S754_zero false.
Proof. unfold SF64sub, SFsub. now rewrite Z.sub_diag. Qed.

(** *** Comparison *)

Lemma sf_compare_antisym X Y :
  SFcompare Y X = option_map CompOpp (SFcompare X Y).
Proof.
  destruct X as [[|]|[|]| |[|] m e], Y as [[|]|[|]| |[|] m' e'];
    try reflexivity; cbn [SFcompare option_map]; f_equal;
    rewrite (Z.compare_antisym e e');
    replace (Pos.compare_cont Eq m' m)
      with (CompOpp (Pos.compare_cont Eq m m'))
      by (now rewrite Pos.compare_cont_antisym);
    now destruct (e ?= e'), (Pos.compare_cont Eq m m').
Qed.

Lemma sf_compare_refl X : X <> S754_nan -> SFcompare X X = Some Eq.
Proof.
  destruct X as [[|]|[|]| |[|] m e]; intros H; try reflexivity;
    try congruence; cbn [SFcompare];
    now rewrite Z.compare_refl, Pos.compare_cont_refl.
Qed.

Lemma sf_compare_some X Y :
  X <> S754_nan -> Y <> S754_nan -> exists c, SFcompare X Y = Some c.
Proof.
  destruct X as [[|]|[|]| |[|] m e], Y as [[|]|[|]| |[|] m' e'];
    intros HX HY; try congruence; cbn [SFcompare]; eauto.
Qed.

Lemma sf_compare_pz_r X : SFcompare X (pz X) = SFcompare X X.
Proof. now destruct X as [[|]|[|]| |[|] m e]. Qed.

Lemma sf_compare_pz_l X : SFcompare (pz X) X = SFcompare X X.
Proof. now destruct X as [[|]|[|]| |[|] m e]. Qed.

Lemma sf_compare_nan_r X : SFcompare X S754_nan = None.
Proof. now destruct X as [[|]|[|]| |[|] m e]. Qed.

(** Outside neither bound is the same as inside the inclusive band,
    when no NaN is involved. *)
Lemma sf_band_no_nan LO HI X :
  LO <> S754_nan -> HI <> S754_nan -> X <> S754_nan ->
  negb (SFltb X LO || SFltb HI X) = SFleb LO X && SFleb X HI.
Proof.
  intros HLO HHI HX. unfold SFltb, SFleb.
  rewrite (sf_compare_antisym X LO), (sf_compare_antisym X HI).
  destruct (sf_compare_some X LO HX HLO) as [c ->].
  destruct (sf_compare_some X HI HX HHI) as [c' ->].
  now destruct c, c'.
Qed.

(** *** A group of one value *)

Lemma sf_single_stddev_finite X :
  finite X = true -> single_stddev X = S754_zero false.
Proof.
  destruct X as [[|]|[|]| |s m e]; intros H; try reflexivity;
    try discriminate.
  unfold single_stddev. cbn [pz]. now rewrite sf_sub_diag_finite.
Qed.

Lemma sf_single_stddev_not_finite X :
  finite X = false -> single_stddev X = S754_nan.
Proof.
  destruct X as [[|]|[|]| |s m e]; intros H; try reflexivity; discriminate.
Qed.

Lemma sf_single_lo X :
  finite X = true -> SF64sub (pz X) (S754_zero false) = pz X.
Proof. destruct X as [[|]|[|]| |s m e]; intros H; reflexivity || discriminate. Qed.

Lemma sf_single_hi X :
  finite X = true -> SF64add (pz X) (S754_zero false) = pz X.
Proof. destruct X as [[|]|[|]| |s m e]; intros H; reflexivity || discriminate. Qed.

(** The single value is on neither side of its own band. *)
Lemma sf_single_not_below X :
  SFltb X (SF64sub (pz X) (single_stddev X)) = false.
Proof.
  destruct (finite X) eqn:F.
  - rewrite sf_single_stddev_finite, sf_single_lo by assumption.
    unfold SFltb. rewrite sf_compare_pz_r, sf_compare_refl; [reflexivity |].
    now destruct X.
  - rewrite sf_single_stddev_not_finite by assumption.
    replace (SF64sub (pz X) S754_nan) with S754_nan by now destruct X as [[|]|[|]| |].
    unfold SFltb. now rewrite sf_compare_nan_r.
Qed.

Lemma sf_single_not_above X :
  SFltb (SF64add (pz X) (single_stddev X)) X = false.
Proof.
  destruct (finite X) eqn:F.
  - rewrite sf_single_stddev_finite, sf_single_hi by assumption.
    unfold SFltb. rewrite sf_compare_pz_l, sf_compare_refl; [reflexivity |].
    now destruct X.
  - rewrite sf_single_stddev_not_finite by assumption.
    replace (SF64add (pz X) S754_nan) with S754_nan by now destruct X as [[|]|[|]| |].
    reflexivity.
Qed.

End SFFacts.

(** ** Binary64 arithmetic on the primitive floats *)

Module Float64Facts.

Import Float64.
Local Open Scope float_scope.

(** Rewrites a float expression to its specification. *)
Ltac to_spec :=
  repeat first
    [ rewrite FloatAxioms.add_spec | rewrite FloatAxioms.sub_spec
    | rewrite FloatAxioms.mul_spec | rewrite FloatAxioms.div_spec
    | rewrite FloatAxioms.sqrt_spec | rewrite FloatAxioms.ltb_spec
    | rewrite FloatAxioms.leb_spec ];
  change (Prim2SF 0) with (S754_zero false);
  change (Prim2SF 1) with SF.one.

Lemma f64_of_int_1 : of_int 1 = 1.
Proof. reflexivity. Qed.

Lemma f64_is_finite_spec x : is_finite x = SF.finite (Prim2SF x).
Proof. reflexivity. Qed.

Lemma f64_is_nan_spec x : PrimFloat.is_nan x = true <-> Prim2SF x = S754_nan.
Proof.
  unfold PrimFloat.is_nan. rewrite FloatAxioms.eqb_spec. unfold SFeqb.
  destruct (Prim2SF x) as [[|]|[|]| |s m e];
    try (cbn; split; (discriminate || reflexivity)).
  rewrite SFFacts.sf_compare_refl by congruence. cbn. split; discriminate.
Qed.

Lemma f64_not_nan_spec x : PrimFloat.is_nan x = false -> Prim2SF x <> S754_nan.
Proof.
  intros H E. apply f64_is_nan_spec in E. congruence.
Qed.

Lemma f64_add_0_l_spec x : Prim2SF (0 + x) = SF.pz (Prim2SF x).
Proof. to_spec. apply SFFacts.sf_add_zero_l. Qed.

(** [0 + x] is [x], except that it is [+0] for [x = -0]. *)
Lemma f64_add_0_l x : is_neg_zero x = false -> 0 + x = x.
Proof.
  unfold is_neg_zero. intros H. apply Prim2SF_inj. rewrite f64_add_0_l_spec.
  now destruct (Prim2SF x) as [[|]|[|]| |s m e].
Qed.

Lemma f64_div_1 x : x / 1 = x.
Proof.
  apply Prim2SF_inj. to_spec. apply SFFacts.sf_div_one, Prim2SF_valid.
Qed.

Lemma f64_add_comm x y : x + y = y + x.
Proof. apply Prim2SF_inj. to_spec. apply SFFacts.sf_add_comm. Qed.

(** Two values accumulated from zero, in either order. *)
Lemma f64_add_0_swap x y : 0 + x + y = 0 + y + x.
Proof.
  apply Prim2SF_inj.
  rewrite (FloatAxioms.add_spec (0 + x)), (FloatAxioms.add_spec (0 + y)).
  rewrite !f64_add_0_l_spec. apply SFFacts.sf_add_pz_swap.
Qed.

(** The loop's test against the inclusive band. *)
Lemma f64_band_no_nan lo hi x :
  PrimFloat.is_nan lo = false -> PrimFloat.is_nan hi = false ->
  PrimFloat.is_nan x = false ->
  negb ((x <? lo) || gtb x hi) = Spec.in_band lo hi x.
Proof.
  intros Hlo Hhi Hx. unfold gtb, Spec.in_band. to_spec.
  apply SFFacts.sf_band_no_nan; now apply f64_not_nan_spec.
Qed.

(** *** A group of one value *)

Lemma f64_single_stddev_spec x :
  Prim2SF (single_stddev x) = SF.single_stddev (Prim2SF x).
Proof.
  unfold single_stddev, SF.single_stddev. cbv zeta.
  rewrite FloatAxioms.sqrt_spec, FloatAxioms.div_spec, FloatAxioms.add_spec,
    FloatAxioms.mul_spec, FloatAxioms.sub_spec, f64_add_0_l_spec.
  reflexivity.
Qed.

Lemma f64_single_stddev_finite x :
  is_finite x = true -> single_stddev x = 0.
Proof.
  intros H. apply Prim2SF_inj. rewrite f64_single_stddev_spec.
  now apply SFFacts.sf_single_stddev_finite.
Qed.

Lemma f64_single_lo x : is_finite x = true -> 0 + x - 0 = 0 + x.
Proof.
  intros H. apply Prim2SF_inj. rewrite FloatAxioms.sub_spec, f64_add_0_l_spec.
  now apply SFFacts.sf_single_lo.
Qed.

Lemma f64_single_hi x : is_finite x = true -> 0 + x + 0 = 0 + x.
Proof.
  intros H. apply Prim2SF_inj.
  rewrite (FloatAxioms.add_spec (0 + x)), f64_add_0_l_spec.
  now apply SFFacts.sf_single_hi.
Qed.

Lemma f64_single_not_below x : (x <? 0 + x - single_stddev x) = false.
Proof.
  rewrite FloatAxioms.ltb_spec, FloatAxioms.sub_spec, f64_add_0_l_spec,
    f64_single_stddev_spec.
  apply SFFacts.sf_single_not_below.
Qed.

Lemma f64_single_not_above x : gtb x (0 + x + single_stddev x) = false.
Proof.
  unfold gtb.
  rewrite FloatAxioms.ltb_spec, (FloatAxioms.add_spec (0 + x)), f64_add_0_l_spec,
    f64_single_stddev_spec.
  apply SFFacts.sf_single_not_above.
Qed.

End Float64Facts.

(** ** The loops of [cookDay] *)

Section Loops.

Local Open Scope float_scope.

Lemma fold_left_map_arg {A B C : Type} (f : A -> C -> A) (g : B -> C)
    (l : list B) (a : A) :
  fold_left (fun acc x => f acc (g x)) l a = fold_left f (map g l) a.
Proof.
  revert a. induction l as [| x l IH]; intros a; cbn; [reflexivity | apply IH].
Qed.

Lemma sum_loop_fsum runs : sum_loop runs = Spec.fsum (map opsSec runs).
Proof. apply fold_left_map_arg. Qed.

Lemma sum2_loop_fsum m runs :
  sum2_loop m runs =
  Spec.fsum (map (fun x => (x - m) * (x - m)) (map opsSec runs)).
Proof.
  unfold sum2_loop, Spec.fsum. rewrite map_map.
  apply (fold_left_map_arg PrimFloat.add
           (fun r => (opsSec r - m) * (opsSec r - m))).
Qed.

Lemma mean_of_spec runs : mean_of runs = Spec.mean (map opsSec runs).
Proof.
  unfold mean_of, Spec.mean. now rewrite sum_loop_fsum, length_map.
Qed.

Lemma stddev_of_spec runs : stddev_of runs = Spec.stddev (map opsSec runs).
Proof.
  unfold stddev_of, Spec.stddev. cbv zeta.
  now rewrite sum2_loop_fsum, mean_of_spec, length_map.
Qed.

(** The third loop from any intermediate state: it adds up, field by
    field, the records it does not skip, and counts them. *)
Lemma avg_loop_from lo hi runs avg count :
  let ks := List.filter (fun r => negb (skipped lo hi r)) runs in
  fold_left (avg_step lo hi) runs (avg, count) =
  (Run (fold_left PrimFloat.add (map opsSec ks) (opsSec avg))
       (fold_left Int64.add (map readBytes ks) (readBytes avg))
       (fold_left Int64.add (map writeBytes ks) (writeBytes avg))
       (fold_left PrimFloat.add (map readAmp ks) (readAmp avg))
       (fold_left PrimFloat.add (map writeAmp ks) (writeAmp avg)),
   (count + Z.of_nat (length ks))%Z).
Proof.
  revert avg count. induction runs as [| r runs IH]; intros avg count.
  - cbn. destruct avg. f_equal. lia.
  - cbn [fold_left List.filter avg_step].
    destruct (skipped lo hi r); cbn [negb].
    + apply IH.
    + rewrite IH. cbn [map fold_left length opsSec readBytes writeBytes
                       readAmp writeAmp].
      f_equal. lia.
Qed.

Lemma avg_loop_retained runs :
  avg_loop (lo_of runs) (hi_of runs) runs =
  (Run (Spec.fsum (map opsSec (retained runs)))
       (Spec.isum (map readBytes (retained runs)))
       (Spec.isum (map writeBytes (retained runs)))
       (Spec.fsum (map readAmp (retained runs)))
       (Spec.fsum (map writeAmp (retained runs))),
   Z.of_nat (length (retained runs))).
Proof. unfold avg_loop. now rewrite avg_loop_from. Qed.

Lemma isum_from_in_range zs a :
  Int64.in_range a -> Int64.in_range (fold_left Int64.add zs a).
Proof.
  revert a. induction zs as [| z zs IH]; intros a Ha; cbn; [assumption |].
  apply IH, Int64Facts.i64_add_in_range.
Qed.

Lemma isum_in_range zs : Int64.in_range (Spec.isum zs).
Proof.
  apply isum_from_in_range. unfold Int64.in_range, Int64.min_int, Int64.max_int.
  lia.
Qed.

(** [cookDay] panics exactly when the loop keeps no record. *)
Lemma aggregate_retained runs :
  aggregate runs =
  match retained runs with
  | [] => None
  | _ :: _ => Some (Spec.average (retained runs))
  end.
Proof.
  unfold aggregate. rewrite avg_loop_retained. unfold averages, Spec.average.
  cbn [opsSec readBytes writeBytes readAmp writeAmp].
  destruct (retained runs) as [| k ks] eqn:E; [reflexivity |].
  rewrite !Int64Facts.i64_quo_pos; try apply isum_in_range;
    try (cbn [length]; lia).
  reflexivity.
Qed.

End Loops.

(** ** The Day Aggregator *)

Section DayAggregator.

Local Open Scope float_scope.
Import Examples.

(** C1, at the day with the two runs 13.6 and 1.7 ops/sec: the rounded mean
    is 7.6499999999999995 and the rounded deviation 5.949999999999999, which
    puts the lower bound of the band above 1.7 and the upper bound below
    13.6; the loop skips both records, [count] stays zero and the integer
    division by [int64(count)] panics. *)
Theorem cookDay_two_runs_panics :
  two_runs <> [] /\
  mean_of two_runs = 7.6499999999999995 /\
  stddev_of two_runs = 5.949999999999999 /\
  lo_of two_runs = 1.7000000000000002 /\
  hi_of two_runs = 13.599999999999998 /\
  map (skipped (lo_of two_runs) (hi_of two_runs)) two_runs = [true; true] /\
  avg_loop (lo_of two_runs) (hi_of two_runs) two_runs = (zero_run, 0%Z) /\
  Int64.quo (readBytes zero_run) 0 = None /\
  cookDay two_runs = None.
Proof. repeat split; try discriminate; vm_compute; reflexivity. Qed.

(** The loop keeps the records of the inclusive band when no NaN is
    involved. *)
Lemma retained_kept runs :
  PrimFloat.is_nan (lo_of runs) = false ->
  PrimFloat.is_nan (hi_of runs) = false ->
  Forall (fun r => PrimFloat.is_nan (opsSec r) = false) runs ->
  retained runs = Spec.kept runs.
Proof.
  intros Hlo Hhi Hall. unfold retained, Spec.kept. cbv zeta.
  rewrite <- mean_of_spec, <- stddev_of_spec.
  fold (lo_of runs) (hi_of runs).
  generalize dependent (lo_of runs). generalize dependent (hi_of runs).
  intros hi Hhi lo Hlo.
  induction Hall as [| r rs Hr _ IH]; [reflexivity |].
  cbn [List.filter]. unfold skipped at 1.
  rewrite Float64Facts.f64_band_no_nan by assumption.
  now rewrite IH.
Qed.

(** C2, as stated, fails on two runs of 1e308 ops/sec: their sum overflows
    to +Inf, the lower bound of the band is Inf - Inf = NaN, no value lies
    in a band with a NaN bound, and yet the loop keeps both records and
    renders their average. *)
Lemma cookDay_keeps_outside_band :
  huge_runs <> [] /\
  PrimFloat.is_nan (lo_of huge_runs) = true /\
  Spec.kept huge_runs = [] /\
  retained huge_runs = huge_runs /\
  cookDay huge_runs = Some "+Inf,2,3,2.5,3.5"%string.
Proof. repeat split; try discriminate; vm_compute; reflexivity. Qed.

(** C2, amended: on a group of which the loop keeps at least one record,
    [mean] and [stddev] are the arithmetic mean and the population standard
    deviation of the throughputs, the records kept are those that are
    neither below [mean - stddev] nor above [mean + stddev] (the records of
    the inclusive band when no NaN is involved), and each of the five
    fields of the aggregate is the sum of the kept values divided by their
    number. *)
Theorem cookDay_refines_spec (runs : list run) :
  retained runs <> [] ->
  mean_of runs = Spec.mean (map opsSec runs) /\
  stddev_of runs = Spec.stddev (map opsSec runs) /\
  lo_of runs = mean_of runs - stddev_of runs /\
  hi_of runs = mean_of runs + stddev_of runs /\
  (forall r, In r (retained runs) <->
             In r runs /\ (opsSec r <? lo_of runs) = false /\
             Float64.gtb (opsSec r) (hi_of runs) = false) /\
  (PrimFloat.is_nan (lo_of runs) = false ->
   PrimFloat.is_nan (hi_of runs) = false ->
   Forall (fun r => PrimFloat.is_nan (opsSec r) = false) runs ->
   retained runs = Spec.kept runs) /\
  aggregate runs = Some (Spec.average (retained runs)) /\
  cookDay runs = Some (render (Spec.average (retained runs))).
Proof.
  intros Hne.
  assert (Hagg : aggregate runs = Some (Spec.average (retained runs))).
  { rewrite aggregate_retained. now destruct (retained runs). }
  split; [apply mean_of_spec |].
  split; [apply stddev_of_spec |].
  split; [reflexivity |].
  split; [reflexivity |].
  split.
  { intros r. unfold retained, skipped. rewrite filter_In, negb_true_iff,
      orb_false_iff. reflexivity. }
  split; [apply retained_kept |].
  split; [exact Hagg |].
  unfold cookDay. now rewrite Hagg.
Qed.

Lemma cookDay_refines_spec_witness :
  retained odd_bytes <> [] /\
  cookDay odd_bytes = Some (render (Spec.average (retained odd_bytes))).
Proof.
  assert (H : retained odd_bytes <> []) by (vm_compute; discriminate).
  split; [exact H |].
  apply (cookDay_refines_spec odd_bytes H).
Defined.

(** *** A day with a single run *)

Lemma mean_of_single r : mean_of [r] = 0 + opsSec r.
Proof. unfold mean_of. cbn. apply Float64Facts.f64_div_1. Qed.

Lemma stddev_of_single r :
  stddev_of [r] = Float64.single_stddev (opsSec r).
Proof. unfold stddev_of. rewrite mean_of_single. reflexivity. Qed.

Lemma skipped_single r : skipped (lo_of [r]) (hi_of [r]) r = false.
Proof.
  unfold skipped, lo_of, hi_of. rewrite mean_of_single, stddev_of_single.
  now rewrite Float64Facts.f64_single_not_below,
    Float64Facts.f64_single_not_above.
Qed.

Lemma retained_single r : retained [r] = [r].
Proof. unfold retained. cbn [List.filter]. now rewrite skipped_single. Qed.

(** C3, as stated, fails in two ways.  For a single run with an infinite
    throughput the deviation is Inf - Inf, so [stddev] is NaN and not zero.
    For a single run whose read amplification is the negative zero the
    aggregate holds [0 + -0 = +0], rendered 0.0 where the record's own
    field is rendered -0.0. *)
Lemma cookDay_single_edge_cases :
  PrimFloat.is_nan (stddev_of [inf_run]) = true /\
  cookDay [negzero_run] = Some "100.0,1,2,0.0,2.5"%string /\
  render negzero_run = "100.0,1,2,-0.0,2.5"%string.
Proof. repeat split; vm_compute; reflexivity. Qed.

(** C3, amended: for every group of exactly one record the record is kept
    and [count] is 1; when its throughput is finite, [stddev] is 0 and the
    band is [[mean, mean]]; the aggregate line is the formatting of the
    record's own fields, a float field that is the negative zero being
    rendered as the positive zero. *)
Theorem cookDay_single (r : run) :
  Int64.in_range (readBytes r) -> Int64.in_range (writeBytes r) ->
  retained [r] = [r] /\
  snd (avg_loop (lo_of [r]) (hi_of [r]) [r]) = 1%Z /\
  (Float64.is_finite (opsSec r) = true ->
   stddev_of [r] = 0 /\ lo_of [r] = mean_of [r] /\ hi_of [r] = mean_of [r]) /\
  cookDay [r] =
    Some (render (Run (0 + opsSec r) (readBytes r) (writeBytes r)
                      (0 + readAmp r) (0 + writeAmp r))) /\
  (Float64.is_neg_zero (opsSec r) = false ->
   Float64.is_neg_zero (readAmp r) = false ->
   Float64.is_neg_zero (writeAmp r) = false ->
   cookDay [r] = Some (render r)).
Proof.
  intros Hrb Hwb.
  assert (Hline : cookDay [r] =
    Some (render (Run (0 + opsSec r) (readBytes r) (writeBytes r)
                      (0 + readAmp r) (0 + writeAmp r)))).
  { unfold cookDay. rewrite aggregate_retained, retained_single.
    unfold Spec.average, Spec.fsum, Spec.isum.
    cbn [length map fold_left Z.of_nat Pos.of_succ_nat].
    change (Float64.of_int 1) with 1.
    rewrite !Float64Facts.f64_div_1, !Z.quot_1_r,
      !Int64Facts.i64_add_0_l by assumption.
    reflexivity. }
  split; [apply retained_single |].
  split; [rewrite avg_loop_retained, retained_single; reflexivity |].
  split; [| split; [exact Hline |]].
  - intros Hfin. unfold lo_of, hi_of.
    rewrite stddev_of_single, mean_of_single.
    rewrite Float64Facts.f64_single_stddev_finite by assumption.
    now rewrite Float64Facts.f64_single_lo, Float64Facts.f64_single_hi.
  - intros H1 H2 H3. rewrite Hline.
    rewrite !Float64Facts.f64_add_0_l by assumption. now destruct r.
Qed.

Lemma cookDay_single_witness :
  cookDay [Run 100 10 30 1.5 4.5] = Some "100.0,10,30,1.5,4.5"%string.
Proof.
  assert (H1 : Int64.in_range 10) by (unfold Int64.in_range, Int64.min_int, Int64.max_int; lia).
  assert (H2 : Int64.in_range 30) by (unfold Int64.in_range, Int64.min_int, Int64.max_int; lia).
  destruct (cookDay_single (Run 100 10 30 1.5 4.5) H1 H2) as (_ & _ & _ & _ & H).
  rewrite H by reflexivity. reflexivity.
Defined.

(** *** Outlier rejection *)

Lemma render_100 (a : run) :
  opsSec a = 100 -> exists rest, render a = ("100.0," ++ rest)%string.
Proof.
  intros H. unfold render. rewrite H.
  exists (Fmt.d (readBytes a) ++ "," ++ Fmt.d (writeBytes a) ++ "," ++
          Fmt.f1 (readAmp a) ++ "," ++ Fmt.f1 (writeAmp a))%string.
  reflexivity.
Qed.

(** C4: for a day whose throughputs are 100, 100, 100, 100 and 10000, in
    this order and whatever the other fields, the unfiltered mean is 2080,
    the band is [[-1880, 6040]], the record with 10000 is skipped, the four
    records with 100 are kept and the throughput of the line is 100.0. *)
Theorem cookDay_rejects_outlier (r1 r2 r3 r4 r5 : run) :
  map opsSec [r1; r2; r3; r4; r5] = [100; 100; 100; 100; 10000] ->
  mean_of [r1; r2; r3; r4; r5] = 2080 /\
  lo_of [r1; r2; r3; r4; r5] = -1880 /\
  hi_of [r1; r2; r3; r4; r5] = 6040 /\
  skipped (-1880) 6040 r5 = true /\
  retained [r1; r2; r3; r4; r5] = [r1; r2; r3; r4] /\
  (exists a, aggregate [r1; r2; r3; r4; r5] = Some a /\ opsSec a = 100) /\
  exists rest,
    cookDay [r1; r2; r3; r4; r5] = Some ("100.0," ++ rest)%string.
Proof.
  intros H.
  destruct r1 as [o1 rb1 wb1 ra1 wa1], r2 as [o2 rb2 wb2 ra2 wa2],
    r3 as [o3 rb3 wb3 ra3 wa3], r4 as [o4 rb4 wb4 ra4 wa4],
    r5 as [o5 rb5 wb5 ra5 wa5].
  cbn in H. injection H as -> -> -> -> ->.
  set (ks := [Run 100 rb1 wb1 ra1 wa1; Run 100 rb2 wb2 ra2 wa2;
              Run 100 rb3 wb3 ra3 wa3; Run 100 rb4 wb4 ra4 wa4]).
  set (runs := [Run 100 rb1 wb1 ra1 wa1; Run 100 rb2 wb2 ra2 wa2;
                Run 100 rb3 wb3 ra3 wa3; Run 100 rb4 wb4 ra4 wa4;
                Run 10000 rb5 wb5 ra5 wa5]).
  assert (Hret : retained runs = ks) by (vm_compute; reflexivity).
  assert (Hops : opsSec (Spec.average ks) = 100) by reflexivity.
  assert (Hagg : aggregate runs = Some (Spec.average ks))
    by now rewrite aggregate_retained, Hret.
  split; [vm_compute; reflexivity |].
  split; [vm_compute; reflexivity |].
  split; [vm_compute; reflexivity |].
  split; [vm_compute; reflexivity |].
  split; [exact Hret |].
  split.
  - exists (Spec.average ks). now split.
  - destruct (render_100 _ Hops) as [rest Hrest]. exists rest.
    unfold cookDay. rewrite Hagg. cbn [fmap option_fmap option_map].
    now rewrite Hrest.
Qed.

Lemma cookDay_rejects_outlier_witness :
  exists rest,
    cookDay [Run 100 1 2 1.5 2.5; Run 100 3 4 1.5 2.5; Run 100 5 6 1.5 2.5;
             Run 100 7 8 1.5 2.5; Run 10000 9 10 1.5 2.5]
    = Some ("100.0," ++ rest)%string.
Proof.
  apply (cookDay_rejects_outlier
           (Run 100 1 2 1.5 2.5) (Run 100 3 4 1.5 2.5) (Run 100 5 6 1.5 2.5)
           (Run 100 7 8 1.5 2.5) (Run 10000 9 10 1.5 2.5)).
  reflexivity.
Defined.

(** *** The order of the records of a day *)

Lemma isum_from_permutation zs zs' a :
  Permutation zs zs' ->
  fold_left Int64.add zs a = fold_left Int64.add zs' a.
Proof.
  intros H. revert a.
  induction H as [| z zs zs' _ IH | y z zs | zs zs' zs'' _ IH1 _ IH2];
    intros a; cbn [fold_left].
  - reflexivity.
  - apply IH.
  - now rewrite Int64Facts.i64_add_swap.
  - now rewrite IH1.
Qed.

Lemma filter_permutation {A : Type} (f : A -> bool) (l l' : list A) :
  Permutation l l' -> Permutation (List.filter f l) (List.filter f l').
Proof.
  induction 1 as [| x l l' _ IH | x y l | l l' l'' _ IH1 _ IH2]; cbn [List.filter].
  - constructor.
  - destruct (f x); [now constructor | assumption].
  - destruct (f x), (f y); try reflexivity. apply perm_swap.
  - now transitivity (List.filter f l').
Qed.

Lemma mean_of_swap a b : mean_of [a; b] = mean_of [b; a].
Proof.
  unfold mean_of, sum_loop. cbn [fold_left length].
  now rewrite Float64Facts.f64_add_0_swap.
Qed.

Lemma stddev_of_swap a b : stddev_of [a; b] = stddev_of [b; a].
Proof.
  unfold stddev_of, sum2_loop. rewrite (mean_of_swap a b).
  cbn [fold_left length]. cbv zeta.
  now rewrite Float64Facts.f64_add_0_swap.
Qed.

Lemma average_swap a b : Spec.average [a; b] = Spec.average [b; a].
Proof.
  unfold Spec.average, Spec.fsum, Spec.isum. cbn [map fold_left length].
  now rewrite (Float64Facts.f64_add_0_swap (opsSec a)),
    (Float64Facts.f64_add_0_swap (readAmp a)),
    (Float64Facts.f64_add_0_swap (writeAmp a)),
    (Int64Facts.i64_add_swap 0 (readBytes a)),
    (Int64Facts.i64_add_swap 0 (writeBytes a)).
Qed.

Lemma cookDay_swap a b : cookDay [a; b] = cookDay [b; a].
Proof.
  unfold cookDay. rewrite !aggregate_retained. unfold retained, lo_of, hi_of.
  rewrite (mean_of_swap a b), (stddev_of_swap a b). cbn [List.filter].
  destruct (skipped _ _ a), (skipped _ _ b); cbn [negb]; try reflexivity.
  now rewrite average_swap.
Qed.

(** C5, as stated, fails on four runs of one day: recorded as 83.7, 83.7,
    11.2, 11.2 the day's line reports 11.2 ops/sec, recorded as 11.2, 11.2,
    83.7, 83.7 it reports 83.7.  The sums are accumulated in list order,
    float addition is not associative, and the last bit of the mean decides
    which pair falls just outside the band. *)
Lemma cookDay_order_matters :
  Permutation slow_last slow_first /\
  cookDay slow_last = Some "11.2,1,2,1.5,2.5"%string /\
  cookDay slow_first = Some "83.7,1,2,1.5,2.5"%string.
Proof.
  split; [| split; vm_compute; reflexivity].
  unfold slow_last, slow_first.
  apply (Permutation_app_comm [_; _] [_; _]).
Qed.

(** C5, amended: the line of a day of at most two records is the same for
    both orders; for longer days two orders of the same records that are
    filtered with the same band keep the same number of records and add up
    to the same byte counters, while the float sums, and through the mean
    the band itself, may depend on the order. *)
Theorem cookDay_order (runs runs' : list run) (lo hi : float) :
  Permutation runs runs' ->
  ((length runs <= 2)%nat -> cookDay runs = cookDay runs') /\
  snd (avg_loop lo hi runs) = snd (avg_loop lo hi runs') /\
  readBytes (fst (avg_loop lo hi runs)) =
  readBytes (fst (avg_loop lo hi runs')) /\
  writeBytes (fst (avg_loop lo hi runs)) =
  writeBytes (fst (avg_loop lo hi runs')).
Proof.
  intros HP. split.
  - intros Hlen. pose proof (Permutation_length HP) as HL.
    destruct runs as [| a [| b [| c runs]]]; cbn in Hlen; try lia.
    + apply Permutation_nil in HP. now subst.
    + apply Permutation_length_1_inv in HP. now subst.
    + apply Permutation_length_2_inv in HP as [-> | ->];
        [reflexivity | apply cookDay_swap].
  - unfold avg_loop. rewrite !avg_loop_from. cbn [fst snd readBytes writeBytes].
    pose proof (filter_permutation (fun r => negb (skipped lo hi r)) _ _ HP)
      as HF.
    repeat split.
    + now rewrite (Permutation_length HF).
    + apply isum_from_permutation. now apply Permutation_map.
    + apply isum_from_permutation. now apply Permutation_map.
Qed.

Lemma cookDay_order_witness :
  cookDay [Run 13.6 100 200 1.5 2.5; Run 100 300 400 3.5 4.5] =
  cookDay [Run 100 300 400 3.5 4.5; Run 13.6 100 200 1.5 2.5].
Proof.
  refine (proj1 (cookDay_order _ _ 0 0 _) _).
  - apply perm_swap.
  - cbn. lia.
Defined.

End DayAggregator.

(** ** Formatting of the aggregate line *)

Section Formatting.

Local Open Scope float_scope.
Import Examples.





(** Some values and their [%.1f]: exact ties go to the even digit, the
    sign of a negative value survives the rounding to zero. *)
Lemma fmt_f1_samples :
  map Fmt.f1 [2.25; 0.75; 0.05; 99.95; -0.01; 1e21; nan; neg_infinity] =
  ["2.2"; "0.8"; "0.1"; "100.0"; "-0.0"; "1000000000000000000000.0"; "NaN";
   "-Inf"]%string.
Proof. vm_compute. reflexivity. Qed.





End Formatting.

(** ** The Workload Cooker *)

Section WorkloadCooker.

Local Open Scope string_scope.

Lemma append_assoc (a b c : string) : (a ++ b) ++ c = a ++ (b ++ c).
Proof.
  induction a as [| x a IH]; [reflexivity |].
  change (String x ((a ++ b) ++ c) = String x (a ++ (b ++ c))).
  now rewrite IH.
Qed.

Lemma append_nil_r (a : string) : a ++ "" = a.
Proof.
  induction a as [| x a IH]; [reflexivity |].
  change (String x (a ++ "") = String x a). now rewrite IH.
Qed.

(** *** The order of [sort.Strings] *)

Lemma string_le_trans (a b c : string) :
  string_le a b -> string_le b c -> string_le a c.
Proof.
  unfold string_le, String.leb. revert b c.
  induction a as [| x a IH]; intros [| y b] [| z c]; cbn; try easy.
  unfold Ascii.compare.
  destruct (N.compare_spec (N_of_ascii x) (N_of_ascii y)) as [E1 | L1 | G1];
    destruct (N.compare_spec (N_of_ascii y) (N_of_ascii z)) as [E2 | L2 | G2];
    destruct (N.compare_spec (N_of_ascii x) (N_of_ascii z)) as [E3 | L3 | G3];
    try easy; try lia.
  apply IH.
Qed.

#[local] Instance string_le_transitive : Transitive string_le.
Proof. intros a b c. apply string_le_trans. Qed.

#[local] Instance string_le_total : Total string_le.
Proof. intros a b. apply String.leb_total. Qed.

Lemma sort_Strings_sorted (l : list string) :
  StronglySorted string_le (sort_Strings l).
Proof. apply StronglySorted_merge_sort; apply _. Qed.

Lemma sort_Strings_permutation (l : list string) :
  Permutation (sort_Strings l) l.
Proof. apply merge_sort_Permutation. Qed.

(** Digits sort before capitals and capitals before small letters, as
    bytes do. *)
Lemma sort_Strings_sample :
  sort_Strings ["b"; "2020-01-10"; "B"; "2020-01-9"; "a"; ""] =
  [""; "2020-01-10"; "2020-01-9"; "B"; "a"; "b"].
Proof. vm_compute. reflexivity. Qed.

(** *** The loop over the sorted days *)

Lemma cook_line_none (w : workload) (ds : list string) :
  fold_left (cook_line w) ds None = None.
Proof. induction ds as [| d ds IH]; [reflexivity | exact IH]. Qed.

Lemma cook_lines_from (w : workload) (ds : list string) (b : string) :
  fold_left (cook_line w) ds (Some b) =
  (fun ls => b ++ join_lines ls) <$> mapM (day_line w) ds.
Proof.
  revert b. induction ds as [| d ds IH]; intros b.
  - cbn. now rewrite append_nil_r.
  - cbn [fold_left]. unfold cook_line at 2. cbn [mbind option_bind].
    change (mapM (day_line w) (d :: ds))
      with (y ← day_line w d; k ← mapM (day_line w) ds; mret (y :: k)).
    destruct (day_line w d) as [l |]; cbn [mbind option_bind].
    + rewrite IH. destruct (mapM (day_line w) ds) as [ls |]; cbn; [| reflexivity].
      now rewrite append_assoc.
    + apply cook_line_none.
Qed.


Lemma day_line_shape (w : workload) (d l : string) :
  day_line w d = Some l ->
  exists agg, cookDay (days w !!! d) = Some agg /\
              l = d ++ "," ++ agg ++ newline.
Proof.
  unfold day_line. destruct (cookDay (days w !!! d)) as [agg |]; cbn;
    [| discriminate].
  intros [= <-]. now exists agg.
Qed.

Lemma sorted_days_elem (w : workload) (d : string) :
  d ∈ sort_Strings (map fst (map_to_list (days w))) <->
  is_Some (days w !! d).
Proof.
  rewrite sort_Strings_permutation.
  change (map fst (map_to_list (days w))) with ((map_to_list (days w)).*1).
  rewrite list_elem_of_fmap. split.
  - intros ([d' rs] & -> & Hin). apply elem_of_map_to_list in Hin. eauto.
  - intros [rs Hrs]. exists (d, rs). split; [reflexivity |].
    now apply elem_of_map_to_list.
Qed.


(** Runs of two different days of a workload can be recorded in either
    order. *)
Lemma add_record_days_commute (d1 d2 name : string) (r1 r2 : run)
    (m : gmap string workload) :
  d1 <> d2 ->
  add_record d1 name r1 (add_record d2 name r2 m) =
  add_record d2 name r2 (add_record d1 name r1 m).
Proof.
  intros Hne. unfold add_record.
  rewrite !lookup_insert_eq. cbn [default from_option days id].
  generalize (days (default (Workload ∅) (m !! name))). intros ds.
  rewrite !insert_insert_eq.
  rewrite (lookup_total_insert_ne _ d2 d1) by congruence.
  rewrite (lookup_total_insert_ne _ d1 d2) by congruence.
  now rewrite (insert_insert_ne _ d1 d2) by congruence.
Qed.





End WorkloadCooker.

(** ** The Grouping Store and the loader *)

Section LoadFacts.

Variable PathSeparator : ascii.
Variable open_lines : string -> string + list string.
Variable Sscanf : string -> scan_result.

Lemma state_eta (st : state) :
  st = State (Loader (data (st_loader st))) (st_stderr st).
Proof. now destruct st as [[d] e]. Qed.

(** [add_record] appends to the day of the workload and touches nothing
    else. *)
Lemma add_record_lookup (day name : string) (r : run)
    (d : gmap string workload) :
  let old := days (default (Workload ∅) (d !! name)) in
  (exists w, add_record day name r d !! name = Some w /\
             days w !! day = Some ((old !!! day) ++ [r]) /\
             forall day', day' <> day -> days w !! day' = old !! day') /\
  (forall name', name' <> name -> add_record day name r d !! name' = d !! name').
Proof.
  intros old. unfold add_record. split.
  - eexists. rewrite lookup_insert_eq. split; [reflexivity |]. cbn [days].
    split; [apply lookup_insert_eq |].
    intros day' Hne. now rewrite lookup_insert_ne.
  - intros name' Hne. now rewrite lookup_insert_ne.
Qed.

(** One line: the store gains the accepted record, the error stream the
    diagnostic, and the loop goes on. *)
Lemma load_line_step (day line : string) (st : state) :
  load_line Sscanf day line st =
  (Some tt,
   State (Loader (match accepted Sscanf line with
                  | Some (name, r) => add_record day name r (data (st_loader st))
                  | None => data (st_loader st)
                  end))
         (st_stderr st ++ match diagnostic Sscanf line with
                          | Some msg => [msg]
                          | None => []
                          end)).
Proof.
  destruct st as [[d] e]. unfold load_line, accepted, diagnostic.
  destruct (String.prefix "Benchmark" line); cbn [negb andb].
  - destruct (scan_failed (Sscanf line)); cbn [negb]; [reflexivity |].
    cbn. now rewrite app_nil_r.
  - cbn. now rewrite app_nil_r.
Qed.

Lemma load_lines_fold (day : string) (lines : list string) (st : state) :
  for_each (load_line Sscanf day) lines st =
  (Some tt,
   State (Loader (fold_left (fun d nr => add_record day nr.1 nr.2 d)
                            (omap (accepted Sscanf) lines)
                            (data (st_loader st))))
         (st_stderr st ++ omap (diagnostic Sscanf) lines)).
Proof.
  revert st. induction lines as [| line lines IH]; intros st.
  - cbn. rewrite app_nil_r. now destruct st as [[d] e].
  - cbn [for_each]. unfold mbind, M_bind. rewrite load_line_step, IH.
    cbn [st_loader st_stderr data omap list_omap].
    destruct (accepted Sscanf line) as [[name r] |],
      (diagnostic Sscanf line) as [msg |];
      cbn [fold_left fst snd]; rewrite <- ?app_assoc, ?app_nil_r; reflexivity.
Qed.

Lemma for_each_app (day : string) (pre post : list string) (st : state) :
  for_each (load_line Sscanf day) (pre ++ post) st =
  for_each (load_line Sscanf day) post
           (for_each (load_line Sscanf day) pre st).2.
Proof.
  revert st. induction pre as [| l pre IH]; intros st; [reflexivity |].
  cbn [app for_each]. unfold mbind, M_bind.
  rewrite load_line_step. apply IH.
Qed.

Lemma Split_samples :
  map (Split "/") ["data/2020-01-01/run1.bz2"; "data"; ""; "a//b/"]%string =
  [["data"; "2020-01-01"; "run1.bz2"]; ["data"]; [""]; ["a"; ""; "b"; ""]]%string.
Proof. reflexivity. Qed.

(** C8: a line without the marker, or with the marker and a scan that
    returns an error or a field count other than seven, adds no record;
    without the marker nothing is written, with it the error stream gains
    the raw line, a colon and a space, the error ([<nil>] when the scan
    returned none) and the byte 10; and the loop goes on with the lines
    that follow, whatever came before. *)
Theorem load_line_rejects (day line : string) (st : state) :
  String.prefix "Benchmark" line = false \/
  sc_err (Sscanf line) <> None \/ sc_n (Sscanf line) <> 7 ->
  let diag :=
    if String.prefix "Benchmark" line
    then [(line ++ ": " ++
           match sc_err (Sscanf line) with
           | Some msg => msg
           | None => "<nil>"
           end ++ String "010" "")%string]
    else [] in
  load_line Sscanf day line st =
    (Some tt, State (st_loader st) (st_stderr st ++ diag)) /\
  (forall pre post : list string,
     let st1 := (for_each (load_line Sscanf day) pre st).2 in
     for_each (load_line Sscanf day) (pre ++ line :: post) st =
     for_each (load_line Sscanf day) post
       (State (st_loader st1) (st_stderr st1 ++ diag))).
Proof.
  intros Hrej diag.
  assert (Hstep : forall s : state,
            load_line Sscanf day line s =
            (Some tt, State (st_loader s) (st_stderr s ++ diag))).
  { intros s. subst diag. unfold load_line.
    destruct (String.prefix "Benchmark" line) eqn:Hp; cbn [negb].
    - assert (Hf : scan_failed (Sscanf line) = true).
      { unfold scan_failed.
        rewrite orb_true_iff, bool_decide_eq_true, negb_true_iff, Z.eqb_neq.
        destruct Hrej as [? | ?]; [discriminate | assumption]. }
      rewrite Hf. unfold eprint, error_text, newline.
      now destruct (sc_err (Sscanf line)).
    - destruct s as [l e]. cbn. now rewrite app_nil_r. }
  split; [apply Hstep |].
  intros pre post st1. rewrite for_each_app. fold st1.
  cbn [for_each]. unfold mbind, M_bind. now rewrite Hstep.
Qed.

End LoadFacts.

(** A file three directories deep: its accepted line is recorded under the
    second segment of its path, its malformed line is diagnosed, its
    unmarked line is ignored. *)
Lemma load_deep_file_example :
  let st := (load "/" Examples.one_file Examples.scan
               "data/2020-01-01/pebble/run1.bz2" Examples.empty_state).2 in
  data (st_loader st) =
    {[ "X"%string :=
         Workload {[ "2020-01-01"%string := [Run 100 10 30 1.5 4.5] ]} ]} /\
  st_stderr st =
    [("BenchmarkFoo not-a-number ops/sec: expected integer" ++ newline)%string].
Proof. split; vm_compute; reflexivity. Qed.

Lemma load_line_rejects_witness :
  load_line Examples.scan "2020-01-01" Examples.bad_line Examples.empty_state =
  (Some tt,
   State (Loader ∅)
         [("BenchmarkFoo not-a-number ops/sec: expected integer" ++
           String "010" "")%string]).
Proof.
  refine (eq_trans
            (proj1 (load_line_rejects Examples.scan "2020-01-01"
                      Examples.bad_line Examples.empty_state _)) _).
  - right. left. vm_compute. discriminate.
  - reflexivity.
Defined.

(** ** The Report Builder *)

Section ReportBuilder.

Lemma cook_entries_none (l : list (string * workload)) :
  fold_left cook_entry l None = None.
Proof. induction l as [| e l IH]; [reflexivity | exact IH]. Qed.

(** The entries are cooked one by one into the map. *)
Lemma cook_entries_some (l : list (string * workload))
    (m0 m : gmap string string) :
  NoDup l.*1 ->
  fold_left cook_entry l (Some m0) = Some m ->
  forall name,
    match (list_to_map l : gmap string workload) !! name with
    | Some w => m !! name = cookWorkload w /\ is_Some (cookWorkload w)
    | None => m !! name = m0 !! name
    end.
Proof.
  revert m0. induction l as [| [n w] l IH]; intros m0 Hnd Hfold name.
  - cbn in Hfold. injection Hfold as <-. cbn [list_to_map foldr].
    now rewrite lookup_empty.
  - cbn [fmap list_fmap fst] in Hnd. apply NoDup_cons in Hnd as [Hn Hnd].
    cbn [fold_left] in Hfold. unfold cook_entry at 2 in Hfold.
    cbn [mbind option_bind fst snd] in Hfold.
    destruct (cookWorkload w) as [blob |] eqn:Hw; cbn [mbind option_bind] in Hfold;
      [| now rewrite cook_entries_none in Hfold].
    specialize (IH _ Hnd Hfold). cbn [list_to_map foldr uncurry fst snd].
    destruct (decide (name = n)) as [-> | Hne].
    + rewrite lookup_insert_eq. specialize (IH n).
      rewrite (not_elem_of_list_to_map_1 _ _ Hn) in IH.
      rewrite IH, lookup_insert_eq, Hw. eauto.
    + rewrite lookup_insert_ne by congruence. specialize (IH name).
      destruct (list_to_map l !! name); [exact IH |].
      now rewrite IH, lookup_insert_ne by congruence.
Qed.

Lemma cook_entries_panic (l : list (string * workload))
    (m0 : gmap string string) :
  fold_left cook_entry l (Some m0) = None ->
  exists e, e ∈ l /\ cookWorkload e.2 = None.
Proof.
  revert m0. induction l as [| [n w] l IH]; intros m0 Hfold; [discriminate |].
  cbn [fold_left] in Hfold. unfold cook_entry at 2 in Hfold.
  cbn [mbind option_bind fst snd] in Hfold.
  destruct (cookWorkload w) as [blob |] eqn:Hw; cbn [mbind option_bind] in Hfold.
  - destruct (IH _ Hfold) as (e & He & Hp). exists e. split; [now right | exact Hp].
  - exists (n, w). split; [left | exact Hw].
Qed.

(** When [cook] returns a report, its keys are the workload names of the
    store and each blob is the one [cookWorkload] makes of that workload;
    it returns none only when some workload has no blob. *)
Lemma cook_report (st : state) :
  match (cook st).1 with
  | Some report =>
      dom report = dom (data (st_loader st)) /\
      forall name w, data (st_loader st) !! name = Some w ->
                     report !! name = cookWorkload w
  | None =>
      exists name w, data (st_loader st) !! name = Some w /\
                     cookWorkload w = None
  end.
Proof.
  unfold cook, get_data, lift, mbind, M_bind. cbn [fst snd].
  set (d := data (st_loader st)).
  destruct (fold_left cook_entry (map_to_list d) (Some ∅)) as [report |] eqn:Hfold.
  - pose proof (cook_entries_some _ _ _ (NoDup_fst_map_to_list d) Hfold) as H.
    rewrite list_to_map_to_list in H. split.
    + apply set_eq. intros name. rewrite !elem_of_dom. specialize (H name).
      destruct (d !! name) as [w |] eqn:Hd.
      * destruct H as [-> Hs]. split; eauto.
      * rewrite H, lookup_empty. split; intros [? ?]; discriminate.
    + intros name w Hd. specialize (H name). rewrite Hd in H. tauto.
  - destruct (cook_entries_panic _ _ Hfold) as ([name w] & Hin & Hp).
    exists name, w. split; [now apply elem_of_map_to_list | exact Hp].
Qed.

(** C10, at the store of one file whose day holds a run of 13.6 and a run
    of 1.7 ops/sec, the group of C1: the store holds the workload "X" with
    that day, [cookDay] keeps neither run, and [cook] panics, so that there
    is no report whose keys could be those of the store. *)
Theorem cook_no_report :
  data (st_loader BadDay.store) =
    {[ "X"%string :=
         Workload {[ "2020-01-01"%string := Examples.two_runs ]} ]} /\
  retained Examples.two_runs = [] /\
  cookDay Examples.two_runs = None /\
  cookWorkload BadDay.workload_X = None /\
  (cook BadDay.store).1 = None.
Proof. repeat split; vm_compute; reflexivity. Qed.

(** The store with the two days of workload "X" is cooked into a report
    with the single key "X" and is left as it was. *)
Lemma cook_two_days_example :
  (cook Examples.two_days).2 = Examples.two_days /\
  (cook Examples.two_days).1 =
    Some {[ "X"%string :=
              ("2020-01-01,100.0,10,30,1.5,4.5" ++ newline ++
               "2020-01-02,200.0,20,40,2.5,3.5" ++ newline)%string ]}.
Proof. split; vm_compute; reflexivity. Qed.

End ReportBuilder.

(** * More properties *)

(** ** Path segments *)

Section PathSegments.

Variable sep : ascii.

Lemma Split_not_nil (s : string) : Split sep s <> [].
Proof.
  destruct s as [| c s]; cbn [Split]; [discriminate |].
  destruct (Ascii.eqb c sep); [discriminate |].
  destruct (Split sep s); discriminate.
Qed.

Lemma Split_cons (c : ascii) (s : string) :
  Split sep (String c s) =
  if Ascii.eqb c sep then EmptyString :: Split sep s
  else match Split sep s with
       | seg :: segs => String c seg :: segs
       | [] => [String c EmptyString]
       end.
Proof. reflexivity. Qed.

Lemma Join_cons (p : string) (ps : list string) :
  ps <> [] -> Join sep (p :: ps) = (p ++ String sep (Join sep ps))%string.
Proof. destruct ps; [congruence | reflexivity]. Qed.

(** Splitting loses nothing: joining the segments with the separator gives
    the path back; there is one segment more than separators; and no
    segment holds a separator. *)
Lemma Split_Join (s : string) :
  Join sep (Split sep s) = s /\
  length (Split sep s) = S (count_byte sep s) /\
  Forall (fun seg => count_byte sep seg = 0%nat) (Split sep s).
Proof.
  induction s as [| c s (IHj & IHl & IHf)].
  - cbn. repeat split. repeat constructor.
  - rewrite Split_cons. cbn [count_byte].
    pose proof (Split_not_nil s) as Hnn.
    destruct (Ascii.eqb_spec c sep) as [-> | Hne].
    + rewrite Join_cons by assumption. cbn [length]. rewrite IHj, IHl.
      repeat split. constructor; [reflexivity | assumption].
    + destruct (Split sep s) as [| seg segs] eqn:E; [congruence |].
      cbn [length] in *. split; [| split; [lia |]].
      * destruct segs as [| seg' segs'].
        -- cbn [Join] in *. now rewrite IHj.
        -- rewrite Join_cons in * by discriminate.
           change ((String c seg ++ String sep (Join sep (seg' :: segs')))%string)
             with (String c (seg ++ String sep (Join sep (seg' :: segs')))%string).
           now rewrite IHj.
      * inversion IHf as [| ? ? Hs Hss]; subst. constructor; [| assumption].
        cbn [count_byte]. destruct (Ascii.eqb_spec c sep); [congruence | exact Hs].
Qed.

Variable open_lines : string -> string + list string.
Variable Sscanf : string -> scan_result.

(** X1: [load] ignores exactly the paths that hold no separator: they are not
    opened and nothing is written. A path with a separator is the first
    segment, the separator, the day, and what follows the day; neither the
    first segment nor the day holds a separator. *)
Theorem load_path_segments (path : string) (st : state) :
  (count_byte sep path = 0%nat ->
   load sep open_lines Sscanf path st = (Some tt, st)) /\
  (count_byte sep path <> 0%nat ->
   exists (p0 day : string) (rest : list string),
     Split sep path = p0 :: day :: rest /\
     path = (p0 ++ String sep (Join sep (day :: rest)))%string /\
     count_byte sep p0 = 0%nat /\ count_byte sep day = 0%nat /\
     load sep open_lines Sscanf path st =
     match open_lines path with
     | inl err => eprint (err ++ newline)%string st
     | inr lines => for_each (load_line Sscanf day) lines st
     end).
Proof.
  destruct (Split_Join path) as (Hj & Hl & Hf). split.
  - intros H0. unfold load. rewrite Hl, H0. reflexivity.
  - intros Hn.
    destruct (Split sep path) as [| p0 [| day rest]] eqn:E;
      cbn [length] in Hl; try lia.
    exists p0, day, rest. split; [reflexivity |].
    rewrite Join_cons in Hj by discriminate.
    inversion Hf as [| ? ? H0 Hf']; subst. inversion Hf' as [| ? ? H1 _]; subst.
    split; [congruence |]. split; [assumption |]. split; [assumption |].
    unfold load. rewrite E. cbn [length Nat.ltb Nat.leb nth].
    now destruct (open_lines _).
Qed.

End PathSegments.

(** ** Buckets of the Grouping Store *)

Section Buckets.

Lemma runs_of_add_record (day name : string) (r : run)
    (d : gmap string workload) (n' d' : string) :
  runs_of (add_record day name r d) n' d' =
  if decide (n' = name /\ d' = day) then runs_of d name day ++ [r]
  else runs_of d n' d'.
Proof.
  unfold runs_of, add_record.
  destruct (decide (n' = name)) as [-> | Hn].
  - rewrite lookup_insert_eq. cbn [default from_option days id].
    destruct (decide (d' = day)) as [-> | Hd].
    + rewrite lookup_total_insert_eq. now rewrite decide_True.
    + rewrite lookup_total_insert_ne by congruence.
      rewrite decide_False by tauto. reflexivity.
  - rewrite lookup_insert_ne by congruence.
    rewrite decide_False by tauto. reflexivity.
Qed.

Lemma no_empty_bucket_add_record (day name : string) (r : run)
    (d : gmap string workload) :
  no_empty_bucket d -> no_empty_bucket (add_record day name r d).
Proof.
  intros Hd n w. unfold add_record.
  destruct (decide (n = name)) as [-> | Hn].
  - rewrite lookup_insert_eq. intros [= <-]. cbn [days]. split.
    + apply insert_non_empty.
    + intros day' rs. destruct (decide (day' = day)) as [-> | Hne].
      * rewrite lookup_insert_eq. intros [= <-]. now destruct (_ !!! day).
      * rewrite lookup_insert_ne by congruence.
        destruct (d !! name) as [w |] eqn:E; cbn [default from_option id].
        -- apply (Hd _ _ E).
        -- cbn [days]. now rewrite lookup_empty.
  - rewrite lookup_insert_ne by congruence. apply Hd.
Qed.

Variable PathSeparator : ascii.
Variable open_lines : string -> string + list string.
Variable Sscanf : string -> scan_result.

Lemma runs_of_lines (day : string) (lines : list string)
    (d : gmap string workload) (n d' : string) :
  runs_of (fold_left (fun d nr => add_record day nr.1 nr.2 d)
                     (omap (accepted Sscanf) lines) d) n d' =
  if decide (d' = day) then runs_of d n day ++ runs_for Sscanf n lines
  else runs_of d n d'.
Proof.
  revert d. induction lines as [| line lines IH]; intros d.
  - cbn. destruct (decide (d' = day)) as [-> |]; [now rewrite app_nil_r | reflexivity].
  - unfold runs_for. cbn [omap list_omap].
    destruct (accepted Sscanf line) as [[n' r] |]; [| apply IH].
    cbn [fold_left fst snd]. rewrite IH, !runs_of_add_record.
    destruct (decide (d' = day)) as [-> | Hd].
    + destruct (String.eqb_spec n' n) as [-> | Hn].
      * rewrite decide_True by tauto. now rewrite <- app_assoc.
      * rewrite decide_False; [reflexivity |]. intros [? _]. congruence.
    + rewrite decide_False by tauto. reflexivity.
Qed.

Lemma no_empty_bucket_lines (day : string) (acc : list (string * run))
    (d : gmap string workload) :
  no_empty_bucket d ->
  no_empty_bucket (fold_left (fun d nr => add_record day nr.1 nr.2 d) acc d).
Proof.
  revert d. induction acc as [| [n r] acc IH]; intros d Hd; [exact Hd |].
  cbn [fold_left]. apply IH. now apply no_empty_bucket_add_record.
Qed.

(** X2: what [load] does to the buckets: the file's accepted runs of a
    workload are appended, in file order, to the bucket of that workload and
    of the file's day; every other bucket is as before. *)
Theorem load_appends (path p0 day : string) (rest lines : list string)
    (st : state) (name day' : string) :
  Split PathSeparator path = p0 :: day :: rest ->
  open_lines path = inr lines ->
  runs_of (data (st_loader (load PathSeparator open_lines Sscanf path st).2))
          name day' =
  if decide (day' = day)
  then runs_of (data (st_loader st)) name day ++ runs_for Sscanf name lines
  else runs_of (data (st_loader st)) name day'.
Proof.
  intros Hparts Hopen. unfold load. rewrite Hparts, Hopen.
  cbn [length Nat.ltb Nat.leb nth]. rewrite load_lines_fold.
  cbn [snd st_loader data]. apply runs_of_lines.
Qed.

(** X3: [load] returns normally whatever the path and the file; it never
    removes or reorders what the store and the error stream hold; and it
    leaves no workload without a day and no day without a run. *)
Theorem load_grows (path : string) (st : state) :
  let st' := (load PathSeparator open_lines Sscanf path st).2 in
  (load PathSeparator open_lines Sscanf path st).1 = Some tt /\
  (forall name day,
     exists new, runs_of (data (st_loader st')) name day =
                 runs_of (data (st_loader st)) name day ++ new) /\
  (exists msgs, st_stderr st' = st_stderr st ++ msgs) /\
  (no_empty_bucket (data (st_loader st)) ->
   no_empty_bucket (data (st_loader st'))).
Proof.
  cbv zeta. unfold load.
  destruct (length (Split PathSeparator path) <? 2)%nat.
  { cbn [mret M_ret fst snd]. split; [reflexivity |].
    split; [intros; exists []; now rewrite app_nil_r |].
    split; [exists []; now rewrite app_nil_r | auto]. }
  destruct (open_lines path) as [err | lines].
  { unfold eprint. cbn [fst snd st_loader st_stderr].
    split; [reflexivity |].
    split; [intros; exists []; now rewrite app_nil_r |].
    split; [eauto | auto]. }
  rewrite load_lines_fold. cbn [fst snd st_loader st_stderr data].
  split; [reflexivity |]. split; [| split].
  - intros name day. rewrite runs_of_lines.
    destruct (decide (day = _)) as [-> |]; eexists; [reflexivity |].
    now rewrite app_nil_r.
  - eauto.
  - apply no_empty_bucket_lines.
Qed.

End Buckets.

Lemma load_appends_witness :
  runs_of (data (st_loader
             (load "/" Examples.one_file Examples.scan
                   "data/2020-01-01/pebble/run1.bz2" Examples.two_days).2))
          "X" "2020-01-01" =
  [Run 100 10 30 1.5 4.5; Run 100 10 30 1.5 4.5].
Proof.
  rewrite (load_appends "/" Examples.one_file Examples.scan
             "data/2020-01-01/pebble/run1.bz2" "data" "2020-01-01"
             ["pebble"; "run1.bz2"]%string
             [Examples.good_line; "PASS"%string; Examples.bad_line]);
    reflexivity.
Defined.

(** ** The day of a file *)

Section DaySegment.

Variable PathSeparator : ascii.
Variable open_lines : string -> string + list string.
Variable Sscanf : string -> scan_result.

Lemma Split_no_sep (s : string) :
  count_byte PathSeparator s = 0%nat -> Split PathSeparator s = [s].
Proof.
  induction s as [| c s IH]; [reflexivity |].
  cbn [count_byte]. rewrite Split_cons.
  destruct (Ascii.eqb c PathSeparator); [discriminate |].
  intros H. now rewrite IH.
Qed.

Lemma Split_app_sep (p s : string) :
  count_byte PathSeparator p = 0%nat ->
  Split PathSeparator (p ++ String PathSeparator s) =
  p :: Split PathSeparator s.
Proof.
  induction p as [| c p IH].
  - intros _. change (("" ++ String PathSeparator s)%string)
      with (String PathSeparator s).
    now rewrite Split_cons, Ascii.eqb_refl.
  - cbn [count_byte].
    change ((String c p ++ String PathSeparator s)%string)
      with (String c (p ++ String PathSeparator s)).
    rewrite Split_cons.
    destruct (Ascii.eqb c PathSeparator); [discriminate |].
    intros H. now rewrite IH.
Qed.

(** The segments of a path that goes on after its second segment, or
    ends with it. *)
Lemma Split_second (p0 day rest : string) :
  count_byte PathSeparator p0 = 0%nat ->
  count_byte PathSeparator day = 0%nat ->
  rest = EmptyString \/ (exists deeper, rest = String PathSeparator deeper) ->
  exists more,
    Split PathSeparator (p0 ++ String PathSeparator (day ++ rest)) =
    p0 :: day :: more.
Proof.
  intros H0 Hd Hrest. rewrite Split_app_sep by assumption.
  destruct Hrest as [-> | [deeper ->]].
  - exists []. now rewrite append_nil_r, Split_no_sep.
  - exists (Split PathSeparator deeper). now rewrite Split_app_sep.
Qed.

(** C9: a file whose path is a first segment, the separator and a second
    segment, and either ends there or goes on with a separator and
    anything after it, is read under the second segment as its day: the
    accepted runs of each workload are appended, in file order, to the
    bucket of that workload and that day, and no other bucket changes,
    however deep the file is; a path without a separator has fewer than two
    segments and changes neither the store nor the error stream. *)
Theorem load_day_segment (p0 day rest : string) (st : state) :
  count_byte PathSeparator p0 = 0%nat ->
  count_byte PathSeparator day = 0%nat ->
  rest = EmptyString \/ (exists deeper, rest = String PathSeparator deeper) ->
  let path := (p0 ++ String PathSeparator (day ++ rest))%string in
  load PathSeparator open_lines Sscanf path st =
    match open_lines path with
    | inl err =>
        (Some tt,
         State (st_loader st)
               (st_stderr st ++ [(err ++ String "010" "")%string]))
    | inr lines => for_each (load_line Sscanf day) lines st
    end /\
  (forall name day',
     runs_of (data (st_loader
                      (load PathSeparator open_lines Sscanf path st).2))
             name day' =
     if decide (day' = day)
     then runs_of (data (st_loader st)) name day ++
          match open_lines path with
          | inl _ => []
          | inr lines => runs_for Sscanf name lines
          end
     else runs_of (data (st_loader st)) name day') /\
  (forall path' : string,
     count_byte PathSeparator path' = 0%nat ->
     load PathSeparator open_lines Sscanf path' st = (Some tt, st)).
Proof.
  intros H0 Hd Hrest path.
  destruct (Split_second p0 day rest H0 Hd Hrest) as [more Hparts].
  fold path in Hparts.
  assert (Hload : load PathSeparator open_lines Sscanf path st =
                  match open_lines path with
                  | inl err =>
                      (Some tt,
                       State (st_loader st)
                             (st_stderr st ++ [(err ++ String "010" "")%string]))
                  | inr lines => for_each (load_line Sscanf day) lines st
                  end).
  { unfold load. rewrite Hparts. cbn [length Nat.ltb Nat.leb nth].
    now destruct (open_lines path). }
  split; [exact Hload |]. split.
  - intros name day'. rewrite Hload.
    destruct (open_lines path) as [err | lines].
    + cbn [snd st_loader]. rewrite app_nil_r.
      destruct (decide (day' = day)) as [-> | Hne]; reflexivity.
    + rewrite load_lines_fold. cbn [snd st_loader data].
      apply runs_of_lines; assumption.
  - intros path' Hp. unfold load. now rewrite (Split_no_sep path' Hp).
Qed.

End DaySegment.

Lemma load_day_segment_witness :
  runs_of (data (st_loader
                   (load "/" Examples.one_file Examples.scan
                         "data/2020-01-01/pebble/run1.bz2"
                         Examples.empty_state).2))
          "X" "2020-01-01" =
  [Run 100 10 30 1.5 4.5].
Proof.
  destruct (load_day_segment "/" Examples.one_file Examples.scan
              "data" "2020-01-01" "/pebble/run1.bz2" Examples.empty_state
              eq_refl eq_refl (or_intror (ex_intro _ _ eq_refl)))
    as (_ & H & _).
  exact (eq_trans (H "X"%string "2020-01-01"%string) eq_refl).
Defined.

(** ** Loading several files *)

Section SeveralFiles.

Variable PathSeparator : ascii.
Variable open_lines : string -> string + list string.
Variable Sscanf : string -> scan_result.

(** The store after [load]: the contribution of the path, recorded under
    its day. *)
Lemma load_store (path : string) (st : state) :
  data (st_loader (load PathSeparator open_lines Sscanf path st).2) =
  fold_left (fun d nr => add_record (day_of PathSeparator path) nr.1 nr.2 d)
            (contribution PathSeparator open_lines Sscanf path)
            (data (st_loader st)).
Proof.
  unfold load, contribution, day_of.
  destruct (length (Split PathSeparator path) <? 2)%nat; [reflexivity |].
  destruct (open_lines path) as [err | lines]; [reflexivity |].
  now rewrite load_lines_fold.
Qed.

Lemma add_record_commute (d1 d2 n1 n2 : string) (r1 r2 : run)
    (m : gmap string workload) :
  d1 <> d2 ->
  add_record d1 n1 r1 (add_record d2 n2 r2 m) =
  add_record d2 n2 r2 (add_record d1 n1 r1 m).
Proof.
  intros Hd. destruct (decide (n1 = n2)) as [-> | Hn].
  - now apply add_record_days_commute.
  - unfold add_record.
    rewrite !(lookup_insert_ne m) by congruence.
    apply insert_insert_ne. congruence.
Qed.

Lemma add_records_commute_1 (d1 d2 n1 : string) (r1 : run)
    (l2 : list (string * run)) (m : gmap string workload) :
  d1 <> d2 ->
  add_record d1 n1 r1
    (fold_left (fun d nr => add_record d2 nr.1 nr.2 d) l2 m) =
  fold_left (fun d nr => add_record d2 nr.1 nr.2 d) l2
    (add_record d1 n1 r1 m).
Proof.
  intros Hd. revert m. induction l2 as [| [n2 r2] l2 IH]; intros m;
    [reflexivity |].
  cbn [fold_left fst snd]. rewrite IH. f_equal.
  now apply add_record_commute.
Qed.

Lemma add_records_commute (d1 d2 : string) (l1 l2 : list (string * run))
    (m : gmap string workload) :
  d1 <> d2 ->
  fold_left (fun d nr => add_record d1 nr.1 nr.2 d) l1
    (fold_left (fun d nr => add_record d2 nr.1 nr.2 d) l2 m) =
  fold_left (fun d nr => add_record d2 nr.1 nr.2 d) l2
    (fold_left (fun d nr => add_record d1 nr.1 nr.2 d) l1 m).
Proof.
  intros Hd. revert m. induction l1 as [| [n1 r1] l1 IH]; intros m;
    [reflexivity |].
  cbn [fold_left fst snd]. rewrite <- IH. f_equal.
  now apply add_records_commute_1.
Qed.

(** X4: two files of different days can be loaded in either order: the store
    is the same. *)
Theorem load_days_commute (p1 p2 : string) (st : state) :
  day_of PathSeparator p1 <> day_of PathSeparator p2 ->
  st_loader
    (load PathSeparator open_lines Sscanf p2
       (load PathSeparator open_lines Sscanf p1 st).2).2 =
  st_loader
    (load PathSeparator open_lines Sscanf p1
       (load PathSeparator open_lines Sscanf p2 st).2).2.
Proof.
  intros Hd.
  assert (H : forall l l' : loader, data l = data l' -> l = l')
    by (intros [?] [?]; cbn; congruence).
  apply H. rewrite !load_store. symmetry. now apply add_records_commute.
Qed.

End SeveralFiles.

Lemma load_days_commute_witness :
  st_loader
    (load "/" Scenario.files Scenario.scan "data/2020-01-02/y.bz2"
       (load "/" Scenario.files Scenario.scan "data/2020-01-01/x.bz2"
             Examples.empty_state).2).2 =
  st_loader
    (load "/" Scenario.files Scenario.scan "data/2020-01-01/x.bz2"
       (load "/" Scenario.files Scenario.scan "data/2020-01-02/y.bz2"
             Examples.empty_state).2).2.
Proof.
  apply load_days_commute. vm_compute. discriminate.
Defined.

(** ** When the Day Aggregator keeps nothing, and when it keeps everything *)

Section KeepNothingOrAll.

Local Open Scope float_scope.
Import SF.

Lemma retained_nil_iff (runs : list run) :
  retained runs = [] <->
  Forall (fun r => skipped (lo_of runs) (hi_of runs) r = true) runs.
Proof.
  unfold retained. generalize (lo_of runs) (hi_of runs). intros lo hi.
  induction runs as [| r runs IH]; cbn [List.filter].
  - split; [constructor | reflexivity].
  - destruct (skipped lo hi r) eqn:E; cbn [negb].
    + rewrite IH. split; [now constructor | now inversion 1].
    + split; [discriminate |]. inversion 1; congruence.
Qed.

Lemma cookDay_none_retained (runs : list run) :
  cookDay runs = None <-> retained runs = [].
Proof.
  unfold cookDay. rewrite aggregate_retained.
  destruct (retained runs); cbn; split; congruence.
Qed.

Lemma cookDay_none_all_skipped (runs : list run) :
  cookDay runs = None <-> all_skipped runs.
Proof. unfold all_skipped. now rewrite cookDay_none_retained, retained_nil_iff. Qed.

(** X5: [cookDay] panics exactly when every record of the group is outside the
    band, which includes the empty group; otherwise it returns a line. *)
Theorem cookDay_panics_iff (runs : list run) :
  (cookDay runs = None <->
   Forall (fun r => skipped (lo_of runs) (hi_of runs) r = true) runs) /\
  (cookDay runs <> None <-> exists r, In r runs /\
                             skipped (lo_of runs) (hi_of runs) r = false) /\
  cookDay [] = None.
Proof.
  pose proof (cookDay_none_retained runs) as H.
  split; [now rewrite H, retained_nil_iff |].
  split; [| reflexivity].
  rewrite H. unfold retained. split.
  - intros Hne. destruct (List.filter _ runs) as [| r ks] eqn:E; [congruence |].
    exists r. assert (Hin : In r (List.filter
      (fun r => negb (skipped (lo_of runs) (hi_of runs) r)) runs))
      by (rewrite E; now left).
    apply filter_In in Hin as [Hin Hs]. split; [exact Hin |].
    now apply negb_true_iff.
  - intros (r & Hin & Hs) E.
    assert (Hr : In r (List.filter
      (fun r => negb (skipped (lo_of runs) (hi_of runs) r)) runs))
      by (apply filter_In; split; [exact Hin | now rewrite Hs]).
    now rewrite E in Hr.
Qed.

(** *** A mean that is not finite *)

Lemma sf_add_not_finite X Y :
  finite X = false \/ finite Y = false -> finite (SF64add X Y) = false.
Proof.
  destruct X as [[|]|[|]| |s m e], Y as [[|]|[|]| |s' m' e'];
    intros [H | H]; try discriminate H; reflexivity.
Qed.

Lemma sf_div_not_finite X Y :
  finite X = false -> finite (SF64div X Y) = false.
Proof.
  destruct X as [[|]|[|]| |s m e], Y as [[|]|[|]| |s' m' e'];
    intros H; try discriminate H; reflexivity.
Qed.

Lemma sf_square_deviation X M :
  finite M = false ->
  pinf_or_nan (SF64mul (SF64sub X M) (SF64sub X M)).
Proof.
  destruct X as [[|]|[|]| |s m e], M as [[|]|[|]| |s' m' e'];
    intros H; try discriminate H; unfold pinf_or_nan; cbn; auto.
Qed.

Lemma sf_add_pinf_or_nan A W :
  A = S754_zero false \/ pinf_or_nan A -> pinf_or_nan W ->
  pinf_or_nan (SF64add A W).
Proof.
  unfold pinf_or_nan. intros [-> | [-> | ->]] [-> | ->]; cbn; auto.
Qed.

Lemma sf_sqrt_div_pinf_or_nan A Y :
  pinf_or_nan A -> pinf_or_nan (SF64sqrt (SF64div A Y)).
Proof.
  unfold pinf_or_nan.
  intros [-> | ->]; destruct Y as [[|]|[|]| |[|] m e]; cbn; auto.
Qed.

Lemma sf_band_not_finite M S X :
  finite M = false -> pinf_or_nan S ->
  SFltb X (SF64sub M S) = false /\ SFltb (SF64add M S) X = false.
Proof.
  unfold pinf_or_nan. intros HM [-> | ->];
    destruct M as [[|]|[|]| |s m e]; try discriminate HM;
    destruct X as [[|]|[|]| |[|] m' e']; split; reflexivity.
Qed.

Lemma add_not_finite (x y : float) :
  Float64.is_finite x = false \/ Float64.is_finite y = false ->
  Float64.is_finite (x + y) = false.
Proof.
  unfold Float64.is_finite. rewrite FloatAxioms.add_spec.
  apply sf_add_not_finite.
Qed.

Lemma sum_not_finite (runs : list run) (acc : float) :
  Float64.is_finite acc = false \/
  Exists (fun r => Float64.is_finite (opsSec r) = false) runs ->
  Float64.is_finite (fold_left (fun sum r => sum + opsSec r) runs acc) = false.
Proof.
  revert acc. induction runs as [| r runs IH]; intros acc H; cbn [fold_left].
  - destruct H as [H | H]; [exact H | inversion H].
  - apply IH. destruct H as [H | H].
    + left. apply add_not_finite. now left.
    + inversion H as [? ? Hr | ? ? Hrs]; subst.
      * left. apply add_not_finite. now right.
      * now right.
Qed.

Lemma mean_not_finite (runs : list run) :
  Exists (fun r => Float64.is_finite (opsSec r) = false) runs ->
  Float64.is_finite (mean_of runs) = false.
Proof.
  intros H. unfold mean_of, Float64.is_finite.
  rewrite FloatAxioms.div_spec. apply sf_div_not_finite.
  apply (sum_not_finite runs 0). now right.
Qed.

(** The sum of the squared deviations from a mean that is not finite. *)
Lemma sum2_not_finite (mean : float) (runs : list run) (acc : float) :
  Float64.is_finite mean = false ->
  Prim2SF acc = S754_zero false \/ pinf_or_nan (Prim2SF acc) ->
  runs <> [] ->
  pinf_or_nan
    (Prim2SF (fold_left (fun sum2 r => let v := opsSec r - mean in sum2 + v * v)
                        runs acc)).
Proof.
  intros Hm. revert acc.
  induction runs as [| r runs IH]; intros acc Hacc Hne; [congruence |].
  cbn [fold_left]. cbv zeta.
  assert (Hstep : pinf_or_nan
            (Prim2SF (acc + (opsSec r - mean) * (opsSec r - mean)))).
  { rewrite FloatAxioms.add_spec, FloatAxioms.mul_spec, FloatAxioms.sub_spec.
    apply sf_add_pinf_or_nan; [exact Hacc |].
    now apply sf_square_deviation. }
  destruct runs as [| r' runs']; [exact Hstep |].
  apply IH; [now right | discriminate].
Qed.

Lemma skipped_not_finite (runs : list run) (r : run) :
  runs <> [] ->
  Float64.is_finite (mean_of runs) = false ->
  skipped (lo_of runs) (hi_of runs) r = false.
Proof.
  intros Hne Hm. unfold skipped, Float64.gtb, lo_of, hi_of.
  rewrite !FloatAxioms.ltb_spec, FloatAxioms.sub_spec, FloatAxioms.add_spec.
  assert (HS : pinf_or_nan (Prim2SF (stddev_of runs))).
  { unfold stddev_of. rewrite FloatAxioms.sqrt_spec, FloatAxioms.div_spec.
    apply sf_sqrt_div_pinf_or_nan.
    apply (sum2_not_finite (mean_of runs) runs 0 Hm); [now left | exact Hne]. }
  destruct (sf_band_not_finite (Prim2SF (mean_of runs))
              (Prim2SF (stddev_of runs)) (Prim2SF (opsSec r)) Hm HS)
    as [-> ->].
  reflexivity.
Qed.

(** X6: a throughput that is NaN or infinite makes the mean NaN or infinite;
    with a mean that is not finite, however it came about, the loop skips no
    record, whatever its throughput, and the line averages all of them. *)
Theorem cookDay_not_finite_keeps_all (runs : list run) :
  runs <> [] ->
  (Exists (fun r => Float64.is_finite (opsSec r) = false) runs ->
   Float64.is_finite (mean_of runs) = false) /\
  (Float64.is_finite (mean_of runs) = false ->
   retained runs = runs /\
   cookDay runs = Some (render (Spec.average runs))).
Proof.
  intros Hne. split; [apply mean_not_finite |].
  intros Hm.
  assert (Hret : retained runs = runs).
  { unfold retained. apply forallb_filter_id, forallb_forall.
    intros r _. now rewrite skipped_not_finite. }
  split; [exact Hret |].
  unfold cookDay. rewrite aggregate_retained, Hret.
  now destruct runs.
Qed.

Lemma cookDay_not_finite_keeps_all_witness :
  retained [Run 100 1 2 1.5 2.5; Run nan 3 4 1.5 2.5; Run 1e9 5 6 1.5 2.5] =
  [Run 100 1 2 1.5 2.5; Run nan 3 4 1.5 2.5; Run 1e9 5 6 1.5 2.5].
Proof.
  refine (proj1 (proj2 (cookDay_not_finite_keeps_all _ _) _));
    [discriminate | reflexivity].
Defined.

End KeepNothingOrAll.

(** ** The averaged byte counters *)

Section ByteAverages.

Lemma isum_from_wrap (zs : list Z) (a : Z) :
  Int64.in_range a ->
  fold_left Int64.add zs a = Int64.wrap (a + zsum zs).
Proof.
  revert a. induction zs as [| z zs IH]; intros a Ha; cbn [fold_left zsum fold_right].
  - now rewrite Z.add_0_r, Int64Facts.i64_wrap_id.
  - rewrite IH by apply Int64Facts.i64_add_in_range.
    unfold Int64.add. rewrite Int64Facts.i64_wrap_add_l. f_equal.
    fold (zsum zs). lia.
Qed.

(** The [int64] sum is the exact sum reduced to 64 bits, whatever happens
    on the way. *)
Lemma isum_wrap (zs : list Z) : Spec.isum zs = Int64.wrap (zsum zs).
Proof.
  unfold Spec.isum. rewrite isum_from_wrap; [reflexivity |].
  unfold Int64.in_range, Int64.min_int, Int64.max_int. lia.
Qed.

Lemma zsum_bounds (zs : list Z) (a b : Z) :
  Forall (fun z => a <= z <= b) zs ->
  Z.of_nat (length zs) * a <= zsum zs <= Z.of_nat (length zs) * b.
Proof.
  induction 1 as [| z zs Hz _ IH]; cbn [zsum fold_right length]; [lia |].
  fold (zsum zs). lia.
Qed.

Lemma quot_between (s n a b : Z) :
  0 < n -> n * a <= s <= n * b -> a <= Z.quot s n <= b.
Proof.
  intros Hn Hs. pose proof (Z.quot_rem s n ltac:(lia)) as E.
  destruct (Z.le_gt_cases 0 s) as [H0 | H0].
  - pose proof (Z.rem_bound_pos s n H0 Hn). nia.
  - pose proof (Z.rem_bound_pos_neg s n Hn ltac:(lia)). nia.
Qed.

(** X7: when the exact sum of the kept byte counters fits [int64], their
    truncated average lies between the smallest and the largest of them. *)
Theorem byte_average_between (runs : list run) (field : run -> Z)
    (a b : Z) :
  retained runs <> [] ->
  field = readBytes \/ field = writeBytes ->
  Int64.in_range (zsum (map field (retained runs))) ->
  Forall (fun r => a <= field r <= b) (retained runs) ->
  exists avg, aggregate runs = Some avg /\ a <= field avg <= b.
Proof.
  intros Hne Hfield Hrange Hall.
  rewrite aggregate_retained.
  destruct (retained runs) as [| k ks] eqn:E; [congruence |].
  eexists. split; [reflexivity |].
  assert (Hq : a <= Z.quot (Spec.isum (map field (k :: ks)))
                           (Z.of_nat (length (k :: ks))) <= b).
  { rewrite isum_wrap, Int64Facts.i64_wrap_id by assumption.
    apply quot_between; [cbn [length]; lia |].
    rewrite <- (length_map field).
    apply zsum_bounds. now apply Forall_map. }
  destruct Hfield as [-> | ->]; exact Hq.
Qed.

Lemma byte_average_between_witness :
  exists avg, aggregate Examples.odd_bytes = Some avg /\
              3 <= readBytes avg <= 4.
Proof.
  apply (byte_average_between Examples.odd_bytes readBytes 3 4).
  - vm_compute. discriminate.
  - now left.
  - vm_compute. split; discriminate.
  - vm_compute. repeat constructor; discriminate.
Defined.



End ByteAverages.

(** ** The order of a range over a map *)

Section RangeOrder.

#[local] Instance string_le_antisym : AntiSymm eq string_le.
Proof. intros a b. apply String.leb_antisym. Qed.

#[local] Instance string_le_trans_inst : Transitive string_le.
Proof. intros a b c. apply string_le_trans. Qed.

#[local] Instance string_le_total_inst : Total string_le.
Proof. intros a b. apply String.leb_total. Qed.

(** Sorting forgets the order of its input. *)
Lemma sort_Strings_canonical (l l' : list string) :
  Permutation l l' -> sort_Strings l = sort_Strings l'.
Proof.
  intros HP. apply (StronglySorted_unique string_le).
  - apply sort_Strings_sorted.
  - apply sort_Strings_sorted.
  - now rewrite !sort_Strings_permutation.
Qed.

(** X9: in whatever order the range over [w.days] yields the day keys,
    [cookWorkload] returns the same blob, or panics alike. *)
Theorem cookWorkload_any_range_order (keys : list string) (w : workload) :
  Permutation keys (map fst (map_to_list (days w))) ->
  cookWorkload_ranging keys w = cookWorkload w.
Proof.
  intros HP. unfold cookWorkload_ranging, cookWorkload.
  now rewrite (sort_Strings_canonical _ _ HP).
Qed.

Lemma cookWorkload_any_range_order_witness :
  cookWorkload_ranging ["2020-01-02"; "2020-01-01"]%string Examples.workload_X =
  cookWorkload_ranging ["2020-01-01"; "2020-01-02"]%string Examples.workload_X.
Proof.
  rewrite !cookWorkload_any_range_order; [reflexivity | |];
    vm_compute; repeat constructor.
Defined.

Lemma cook_entries_agree (l l' : list (string * workload))
    (m : gmap string string) :
  NoDup l.*1 -> Permutation l l' ->
  fold_left cook_entry l (Some ∅) = Some m ->
  fold_left cook_entry l' (Some ∅) = Some m.
Proof.
  intros Hnd HP Hm.
  assert (Hnd' : NoDup l'.*1) by now rewrite <- HP.
  assert (Hmap : (list_to_map l : gmap string workload) = list_to_map l')
    by now apply list_to_map_proper.
  pose proof (cook_entries_some _ _ _ Hnd Hm) as H.
  destruct (fold_left cook_entry l' (Some ∅)) as [m' |] eqn:Hm'.
  - f_equal. apply map_eq. intros name.
    pose proof (cook_entries_some _ _ _ Hnd' Hm' name) as H'.
    specialize (H name). rewrite Hmap in H.
    destruct (list_to_map l' !! name); [| congruence].
    destruct H as [-> _], H' as [-> _]. reflexivity.
  - exfalso. destruct (cook_entries_panic _ _ Hm') as ([n w] & Hin & Hp).
    specialize (H n).
    rewrite (elem_of_list_to_map_1 l n w) in H; [| exact Hnd | now rewrite HP].
    cbn in Hp. destruct H as [_ [b Hb]]. congruence.
Qed.

(** X10: in whatever order the range over [l.data] yields the workloads,
    [cook] returns the same report, or panics alike. *)
Theorem cook_any_range_order (entries : list (string * workload))
    (st : state) :
  Permutation entries (map_to_list (data (st_loader st))) ->
  cook_ranging entries = (cook st).1.
Proof.
  intros HP.
  change ((cook st).1)
    with (fold_left cook_entry (map_to_list (data (st_loader st))) (Some ∅)).
  unfold cook_ranging.
  pose proof (NoDup_fst_map_to_list (data (st_loader st))) as Hnd.
  assert (Hnd' : NoDup entries.*1) by now rewrite HP.
  destruct (fold_left cook_entry entries (Some ∅)) as [m |] eqn:Hm.
  - symmetry. now apply (cook_entries_agree entries).
  - destruct (fold_left cook_entry (map_to_list _) (Some ∅)) as [m' |] eqn:Hm';
      [| reflexivity].
    symmetry in HP.
    now rewrite (cook_entries_agree _ entries m' Hnd HP Hm') in Hm.
Qed.

Lemma cook_any_range_order_witness :
  cook_ranging (reverse (map_to_list (data (st_loader Scenario.loaded)))) =
  (cook Scenario.loaded).1.
Proof.
  apply cook_any_range_order. apply reverse_Permutation.
Defined.

End RangeOrder.

(** ** Lines and fields of a blob *)

Section LinesAndFields.

Local Open Scope string_scope.

Lemma count_byte_app (c : ascii) (a b : string) :
  count_byte c (a ++ b) = (count_byte c a + count_byte c b)%nat.
Proof.
  induction a as [| x a IH]; [reflexivity |].
  change (count_byte c (String x (a ++ b)) =
          (count_byte c (String x a) + count_byte c b)%nat).
  cbn [count_byte]. rewrite IH. lia.
Qed.

Lemma count_uint (c : ascii) (d : Decimal.uint) :
  separator c -> count_byte c (NilEmpty.string_of_uint d) = 0%nat.
Proof.
  intros [-> | ->]; induction d; cbn; assumption || reflexivity.
Qed.

Lemma count_fmt_d (c : ascii) (z : Z) :
  separator c -> count_byte c (Fmt.d z) = 0%nat.
Proof.
  intros Hc. unfold Fmt.d, NilZero.string_of_int.
  destruct (Z.to_int z) as [d | d]; unfold NilZero.string_of_uint.
  - destruct d; try (now apply count_uint); now destruct Hc as [-> | ->].
  - change (count_byte c (String "-" (match d with
                                       | Decimal.Nil => "0"
                                       | _ => NilEmpty.string_of_uint d
                                       end)) = 0%nat).
    cbn [count_byte].
    replace (Ascii.eqb "-" c) with false by now destruct Hc as [-> | ->].
    destruct d; try (now apply count_uint); now destruct Hc as [-> | ->].
Qed.

Lemma count_fmt_f1 (c : ascii) (x : float) :
  separator c -> count_byte c (Fmt.f1 x) = 0%nat.
Proof.
  intros Hc. unfold Fmt.f1.
  assert (Hfixed : forall s t, count_byte c (Fmt.fixed1 s t) = 0%nat).
  { intros s t. unfold Fmt.fixed1.
    rewrite !count_byte_app, !count_fmt_d by assumption.
    destruct s, Hc as [-> | ->]; reflexivity. }
  destruct (Prim2SF x) as [s | [|] | | s m e]; try apply Hfixed;
    destruct Hc as [-> | ->]; reflexivity.
Qed.

(** The aggregate of a day holds four commas and no newline. *)
Lemma count_render (a : run) :
  count_byte "," (render a) = 4%nat /\ count_byte "010" (render a) = 0%nat.
Proof.
  unfold render.
  rewrite !count_byte_app, !count_fmt_d, !count_fmt_f1
    by (unfold separator; auto).
  split; reflexivity.
Qed.

Lemma cookWorkload_lines_eq (w : workload) :
  let ds := sort_Strings (map fst (map_to_list (days w))) in
  (forall d, In d ds <-> is_Some (days w !! d)) /\
  length ds = size (days w) /\
  cookWorkload w = join_lines <$> mapM (day_line w) ds.
Proof.
  intros ds. split; [| split].
  - intros d. rewrite <- list_elem_of_In. apply sorted_days_elem.
  - unfold ds. rewrite (Permutation_length (sort_Strings_permutation _)).
    rewrite length_map. apply length_map_to_list.
  - unfold cookWorkload. fold ds. cbv zeta. rewrite cook_lines_from.
    now destruct (mapM (day_line w) ds).
Qed.

Lemma count_day_line (w : workload) (d l : string) :
  day_line w d = Some l ->
  count_byte "," l = (count_byte "," d + 5)%nat /\
  count_byte "010" l = (count_byte "010" d + 1)%nat.
Proof.
  intros H. destruct (day_line_shape _ _ _ H) as (agg & Hagg & ->).
  unfold cookDay in Hagg.
  destruct (aggregate (days w !!! d)) as [a |]; [| discriminate].
  cbn in Hagg. injection Hagg as <-.
  destruct (count_render a) as [Hc Hn].
  rewrite !count_byte_app, Hc, Hn. cbn. lia.
Qed.

Lemma count_join_lines (c : ascii) (k : nat) (ls : list string) :
  Forall (fun l => count_byte c l = k) ls ->
  count_byte c (join_lines ls) = (k * length ls)%nat.
Proof.
  induction 1 as [| l ls Hl _ IH]; [cbn; lia |].
  change (join_lines (l :: ls)) with (l ++ join_lines ls).
  rewrite count_byte_app, Hl, IH. cbn [length]. lia.
Qed.

(** X11: a blob can be split back: when no day key holds a comma or a newline,
    the blob of a workload holds as many newlines as the workload has days and
    five commas per day; the line of a single day holds four commas and no
    newline. *)
Theorem blob_lines_and_fields (w : workload) (blob : string) :
  cookWorkload w = Some blob ->
  (forall d rs c, days w !! d = Some rs -> separator c ->
                  count_byte c d = 0%nat) ->
  count_byte "010" blob = size (days w) /\
  count_byte "," blob = (5 * size (days w))%nat /\
  (forall runs line, cookDay runs = Some line ->
     count_byte "," line = 4%nat /\ count_byte "010" line = 0%nat).
Proof.
  intros Hblob Hkeys.
  destruct (cookWorkload_lines_eq w) as (Helem & Hlen & Heq).
  rewrite Heq in Hblob.
  destruct (mapM (day_line w) _) as [ls |] eqn:Hls; [| discriminate].
  cbn in Hblob. injection Hblob as <-.
  apply mapM_Some in Hls.
  assert (Hcount : Forall (fun l => count_byte "," l = 5%nat /\
                                    count_byte "010" l = 1%nat) ls).
  { assert (Hsome : forall d, In d (sort_Strings (map fst (map_to_list (days w))))
                                -> is_Some (days w !! d))
      by (intros d; apply Helem).
    clear Heq Hlen Helem.
    induction Hls as [| d l ds ls Hd _ IH]; constructor.
    - destruct (count_day_line _ _ _ Hd) as [-> ->].
      destruct (Hsome d ltac:(now left)) as [rs Hrs].
      rewrite !(Hkeys d rs) by (unfold separator; auto). split; reflexivity.
    - apply IH. intros d' Hin. apply Hsome. now right. }
  rewrite <- Hlen, (Forall2_length _ _ _ Hls).
  split; [| split].
  - rewrite (count_join_lines _ 1); [lia |].
    eapply Forall_impl; [exact Hcount | now intros ? [? ?]].
  - rewrite (count_join_lines _ 5); [lia |].
    eapply Forall_impl; [exact Hcount | now intros ? [? ?]].
  - intros runs line Hline. unfold cookDay in Hline.
    destruct (aggregate runs) as [a |]; [| discriminate].
    cbn in Hline. injection Hline as <-. apply count_render.
Qed.

Lemma blob_lines_and_fields_witness :
  count_byte "010" ("2020-01-01,100.0,10,30,1.5,4.5" ++ newline ++
                    "2020-01-02,200.0,20,40,2.5,3.5" ++ newline) =
  size (days Examples.workload_X).
Proof.
  refine (proj1 (blob_lines_and_fields Examples.workload_X _ _ _)).
  - vm_compute. reflexivity.
  - assert (H : map_Forall
                  (fun (d : string) (_ : list run) =>
                     count_byte "," d = 0%nat /\ count_byte "010" d = 0%nat)
                  (days Examples.workload_X))
      by (apply (bool_decide_unpack _); vm_compute; reflexivity).
    intros d rs c Hd [-> | ->]; apply (H d rs Hd).
Defined.

End LinesAndFields.

(** ** The program *)

Section Program.

Variable PathSeparator : ascii.
Variable open_lines : string -> string + list string.
Variable Sscanf : string -> scan_result.
Variable MarshalIndent : gmap string string -> string + string.
Variable WriteFile : string -> string -> option string.

Lemma load_returns (path : string) (st : state) :
  (load PathSeparator open_lines Sscanf path st).1 = Some tt.
Proof.
  unfold load. destruct (length _ <? 2)%nat; [reflexivity |].
  destruct (open_lines path); [reflexivity |]. now rewrite load_lines_fold.
Qed.

(** One call of the walk function on an entry with an [info]. *)
Lemma walk_fn_store (p : string) (b : bool) (st : state) :
  (walk_fn PathSeparator open_lines Sscanf (p, Some b) st).1 = Some tt /\
  data (st_loader (walk_fn PathSeparator open_lines Sscanf (p, Some b) st).2) =
  if productive PathSeparator open_lines Sscanf (p, Some b)
  then fold_left
         (fun d nr => add_record (day_of PathSeparator p) nr.1 nr.2 d)
         (contribution PathSeparator open_lines Sscanf p) (data (st_loader st))
  else data (st_loader st).
Proof.
  unfold walk_fn, lift, mbind, M_bind, productive. cbn [fst snd].
  destruct b; [| split; reflexivity].
  split; [apply load_returns |]. rewrite load_store.
  now destruct (contribution _ _ _ p).
Qed.

Lemma walk_store (visits : list (string * option bool)) (st : state) :
  Forall (fun v => v.2 <> None) visits ->
  (for_each (walk_fn PathSeparator open_lines Sscanf) visits st).1 = Some tt /\
  data (st_loader
          (for_each (walk_fn PathSeparator open_lines Sscanf) visits st).2) =
  fold_left
    (fun d v =>
       fold_left (fun d nr => add_record (day_of PathSeparator v.1) nr.1 nr.2 d)
                 (contribution PathSeparator open_lines Sscanf v.1) d)
    (List.filter (productive PathSeparator open_lines Sscanf) visits)
    (data (st_loader st)).
Proof.
  intros Hall. revert st. induction Hall as [| [p [b |]] visits Hv _ IH];
    intros st; [split; reflexivity | | now cbn in Hv].
  cbn [for_each List.filter]. unfold mbind, M_bind.
  destruct (walk_fn_store p b st) as [H1 H2].
  destruct (walk_fn _ _ _ (p, Some b) st) as [[[] |] st1]; [| discriminate].
  cbn [fst snd] in *. destruct (IH st1) as [IH1 IH2].
  split; [exact IH1 |]. rewrite IH2, H2.
  now destruct (productive _ _ _ (p, Some b)).
Qed.

Lemma walk_nil_info (visits : list (string * option bool)) (st : state) :
  Exists (fun v => v.2 = None) visits ->
  (for_each (walk_fn PathSeparator open_lines Sscanf) visits st).1 = None.
Proof.
  revert st. induction visits as [| [p i] visits IH]; intros st Hex;
    [now inversion Hex |].
  cbn [for_each]. unfold mbind, M_bind.
  destruct i as [b |].
  - destruct (walk_fn_store p b st) as [H1 _].
    destruct (walk_fn _ _ _ (p, Some b) st) as [[[] |] st1]; [| discriminate].
    apply IH. inversion Hex as [? ? H | ? ? H]; subst; [discriminate | exact H].
  - reflexivity.
Qed.

(** The result of [main] and the store it leaves, for a walk all of whose
    entries have an [info]. *)
Lemma main_result (Walk : string -> list (string * option bool)) (st : state) :
  Forall (fun v => v.2 <> None) (Walk "data"%string) ->
  data (st_loader
          (main PathSeparator open_lines Sscanf Walk MarshalIndent WriteFile
                st).2) =
  walked PathSeparator open_lines Sscanf (Walk "data"%string) /\
  (main PathSeparator open_lines Sscanf Walk MarshalIndent WriteFile st).1 =
  match fold_left cook_entry
          (map_to_list
             (walked PathSeparator open_lines Sscanf (Walk "data"%string)))
          (Some ∅) with
  | None => None
  | Some report =>
      match MarshalIndent report with
      | inl _ => Some (Exit 1)
      | inr data =>
          match WriteFile "data.js"%string data with
          | Some _ => Some (Exit 1)
          | None => Some (Ret data)
          end
      end
  end.
Proof.
  intros Hall. unfold main, walked, mbind, M_bind.
  set (st0 := State (Loader ∅) (st_stderr st)).
  change (set_data ∅ st) with (Some tt, st0). cbv beta iota.
  destruct (walk_store (Walk "data"%string) st0 Hall) as [H1 H2].
  destruct (for_each _ (Walk "data"%string) st0) as [[[] |] st1];
    [| discriminate].
  cbn [fst snd] in H2. clear H1.
  change (data (st_loader st0)) with (∅ : gmap string workload) in H2.
  rewrite <- H2.
  unfold cook, get_data, lift, prettyJSON, eprint, mbind, M_bind, mret, M_ret.
  cbv beta iota.
  destruct (fold_left cook_entry _ _) as [report |]; [| split; reflexivity].
  destruct (MarshalIndent report) as [err | bytes]; [split; reflexivity |].
  destruct (WriteFile _ bytes); split; reflexivity.
Qed.

(** A workload is cooked unless one of its days makes [cookDay] panic. *)
Lemma cookWorkload_none_iff (w : workload) :
  cookWorkload w = None <->
  exists day rs, days w !! day = Some rs /\ cookDay rs = None.
Proof.
  unfold cookWorkload. rewrite cook_lines_from, fmap_None, mapM_None, Exists_exists.
  split.
  - intros (day & Hin & Hl). apply sorted_days_elem in Hin as [rs Hrs].
    exists day, rs. split; [exact Hrs |].
    unfold day_line in Hl. rewrite (lookup_total_correct _ _ _ Hrs) in Hl.
    now destruct (cookDay rs).
  - intros (day & rs & Hrs & Hc). exists day. split.
    + apply sorted_days_elem. eauto.
    + unfold day_line. now rewrite (lookup_total_correct _ _ _ Hrs), Hc.
Qed.

Lemma cook_entries_stuck (l : list (string * workload))
    (acc : option (gmap string string)) :
  Exists (fun e => cookWorkload e.2 = None) l ->
  fold_left cook_entry l acc = None.
Proof.
  revert acc. induction l as [| [n w] l IH]; intros acc Hex;
    [now inversion Hex |].
  cbn [fold_left]. inversion Hex as [? ? H | ? ? H]; subst.
  - cbn [snd] in H. unfold cook_entry at 2. cbn [snd]. rewrite H.
    destruct acc; apply cook_entries_none.
  - now apply IH.
Qed.

Lemma cook_entries_none_iff (d : gmap string workload) :
  fold_left cook_entry (map_to_list d) (Some ∅) = None <->
  exists name w day rs,
    d !! name = Some w /\ days w !! day = Some rs /\ all_skipped rs.
Proof.
  split.
  - intros H. apply cook_entries_panic in H as ([name w] & Hin & Hp).
    apply elem_of_map_to_list in Hin. cbn [snd] in Hp.
    apply cookWorkload_none_iff in Hp as (day & rs & Hrs & Hc).
    exists name, w, day, rs. now rewrite <- cookDay_none_all_skipped.
  - intros (name & w & day & rs & Hw & Hrs & Hs).
    apply cook_entries_stuck, Exists_exists. exists (name, w).
    split; [now apply elem_of_map_to_list |].
    apply cookWorkload_none_iff. exists day, rs.
    now rewrite cookDay_none_all_skipped.
Qed.

Lemma no_empty_bucket_walked (visits : list (string * option bool)) :
  no_empty_bucket (walked PathSeparator open_lines Sscanf visits).
Proof.
  unfold walked.
  assert (H0 : no_empty_bucket (∅ : gmap string workload))
    by (intros n w; now rewrite lookup_empty).
  revert H0. generalize (∅ : gmap string workload).
  induction (List.filter _ visits) as [| v vs IH]; intros d Hd; [exact Hd |].
  cbn [fold_left]. apply IH. now apply no_empty_bucket_lines.
Qed.

(** X12: an entry whose [info] is nil, such as a missing "data" directory,
    makes [main] panic: nothing is cooked and nothing is written. *)
Theorem main_nil_info_panics (Walk : string -> list (string * option bool))
    (st : state) :
  Exists (fun v => v.2 = None) (Walk "data"%string) ->
  (main PathSeparator open_lines Sscanf Walk MarshalIndent WriteFile st).1 =
  None.
Proof.
  intros Hex. unfold main, mbind, M_bind.
  set (st0 := State (Loader ∅) (st_stderr st)).
  change (set_data ∅ st) with (Some tt, st0). cbv beta iota.
  pose proof (walk_nil_info _ st0 Hex) as H.
  destruct (for_each _ (Walk "data"%string) st0) as [[[] |] st1];
    [discriminate | reflexivity].
Qed.

(** X13: what [main] returns and what it leaves in the store depend only on
    the entries of the walk that are regular files with an accepted line:
    directories, other entries, files that cannot be opened or hold no
    accepted line, the store and the error stream [main] starts in, all are
    without effect on them. *)
Theorem main_depends_on_records
    (Walk Walk' : string -> list (string * option bool)) (st st' : state) :
  Forall (fun v => v.2 <> None) (Walk "data"%string) ->
  Forall (fun v => v.2 <> None) (Walk' "data"%string) ->
  List.filter (productive PathSeparator open_lines Sscanf) (Walk "data"%string) =
  List.filter (productive PathSeparator open_lines Sscanf) (Walk' "data"%string) ->
  (main PathSeparator open_lines Sscanf Walk MarshalIndent WriteFile st).1 =
  (main PathSeparator open_lines Sscanf Walk' MarshalIndent WriteFile st').1 /\
  st_loader
    (main PathSeparator open_lines Sscanf Walk MarshalIndent WriteFile st).2 =
  st_loader
    (main PathSeparator open_lines Sscanf Walk' MarshalIndent WriteFile st').2.
Proof.
  intros Hall Hall' Heq.
  destruct (main_result Walk st Hall) as [Hs Hr].
  destruct (main_result Walk' st' Hall') as [Hs' Hr'].
  assert (Hw : walked PathSeparator open_lines Sscanf (Walk "data"%string) =
               walked PathSeparator open_lines Sscanf (Walk' "data"%string))
    by (unfold walked; now rewrite Heq).
  split.
  - now rewrite Hr, Hr', Hw.
  - assert (H : forall l l' : loader, data l = data l' -> l = l')
      by (intros [?] [?]; cbn; congruence).
    apply H. now rewrite Hs, Hs', Hw.
Qed.

(** X14: the three ways [main] ends when every entry of the walk has an
    [info]: it panics exactly when the store it built holds a day all of whose
    runs the Day Aggregator skips; it returns exactly when the report is
    cooked, marshalled and written, and then the bytes written are the
    marshalled report; otherwise it exits with status 1. The store it built
    has no workload without a day and no day without a run. *)
Theorem main_outcome (Walk : string -> list (string * option bool))
    (st : state) :
  Forall (fun v => v.2 <> None) (Walk "data"%string) ->
  let result :=
    (main PathSeparator open_lines Sscanf Walk MarshalIndent WriteFile st).1 in
  let st' :=
    (main PathSeparator open_lines Sscanf Walk MarshalIndent WriteFile st).2 in
  no_empty_bucket (data (st_loader st')) /\
  (result = None <->
   exists name w day rs,
     data (st_loader st') !! name = Some w /\ days w !! day = Some rs /\
     all_skipped rs) /\
  (forall bytes,
     result = Some (Ret bytes) <->
     exists report,
       (cook st').1 = Some report /\ MarshalIndent report = inr bytes /\
       WriteFile "data.js"%string bytes = None) /\
  (forall code, result = Some (Exit code) -> code = 1).
Proof.
  intros Hall result st'. subst result st'.
  destruct (main_result Walk st Hall) as [Hs Hr]. rewrite Hr, Hs.
  set (d := walked PathSeparator open_lines Sscanf (Walk "data"%string)).
  assert (Hcook : (cook (main PathSeparator open_lines Sscanf Walk
                           MarshalIndent WriteFile st).2).1 =
                  fold_left cook_entry (map_to_list d) (Some ∅)).
  { unfold cook, get_data, lift, mbind, M_bind. cbn [fst]. now rewrite Hs. }
  rewrite Hcook. pose proof (cook_entries_none_iff d) as Hnone.
  split; [apply no_empty_bucket_walked |].
  destruct (fold_left cook_entry (map_to_list d) (Some ∅)) as [report |].
  - split; [| split].
    + rewrite <- Hnone. split; [| discriminate].
      destruct (MarshalIndent report) as [err | b]; [discriminate |].
      destruct (WriteFile _ b); discriminate.
    + intros bytes. split.
      * intros H. exists report. split; [reflexivity |].
        destruct (MarshalIndent report) as [err | b]; [discriminate |].
        destruct (WriteFile _ b) eqn:Hw; [discriminate |].
        injection H as Hb. subst b. split; [reflexivity | exact Hw].
      * intros (report' & [= <-] & Hm & Hw). now rewrite Hm, Hw.
    + intros code H. destruct (MarshalIndent report) as [err | b];
        [congruence |]. destruct (WriteFile _ b); congruence.
  - split; [| split].
    + now rewrite <- Hnone.
    + intros bytes. split; [discriminate | intros (? & ? & _); discriminate].
    + discriminate.
Qed.

End Program.

Lemma main_nil_info_panics_witness :
  (main "/" Scenario.files Scenario.scan Scenario.missing Scenario.marshal
        Scenario.write Examples.empty_state).1 = None.
Proof.
  apply main_nil_info_panics. left. reflexivity.
Defined.

Lemma main_depends_on_records_witness :
  (main "/" Scenario.files Scenario.scan Scenario.tree Scenario.marshal
        Scenario.write Examples.empty_state).1 =
  (main "/" Scenario.files Scenario.scan Scenario.files_only Scenario.marshal
        Scenario.write Examples.two_days).1.
Proof.
  refine (proj1 (main_depends_on_records _ _ _ _ _ _ _ _ _ _ _ _)).
  - repeat constructor; discriminate.
  - repeat constructor; discriminate.
  - vm_compute. reflexivity.
Defined.

Lemma main_outcome_witness :
  no_empty_bucket
    (data (st_loader
             (main "/" Scenario.files Scenario.scan Scenario.tree
                   Scenario.marshal Scenario.write Examples.empty_state).2)).
Proof.
  refine (proj1 (main_outcome _ _ _ _ _ _ _ _)).
  repeat constructor; discriminate.
Defined.

(** The walk of the small data directory: the two files are loaded, the
    two workloads cooked and the report written; the file that cannot be
    opened leaves a diagnostic, and so does the malformed line. *)
Lemma main_scenario_example :
  let out := main "/" Scenario.files Scenario.scan Scenario.tree
                  Scenario.marshal Scenario.write Examples.empty_state in
  out.1 = Some (Ret ("X:2020-01-01,100.0,10,30,1.5,4.5" ++ newline ++
                     "2020-01-02,100.0,10,30,1.5,4.5" ++ newline ++
                     "Y:2020-01-02,50.0,5,15,2.5,3.5" ++ newline)%string) /\
  length (st_stderr out.2) = 3%nat.
Proof. vm_compute. split; reflexivity. Qed.
